(** * Data-fusion and composite-scoring pipeline

    A shallow embedding of the pandas pipeline of the repository:
    - [nfl_info.py]: the source normalizer ([get_pfr_advstats_combined]) and
      the fusion engine ([construct_intelligent_dataset]);
    - [advanced_stats.py]: the trajectory module ([add_trajectory_metrics]),
      the composite metric engine ([calculate_composite_metrics]) and
      [generate_dynasty_rankings];
    - [internal_rankings.py]: the candidate lists ([get_dynasty_candidates]).

    A table is a list of rows in index order together with the list of its
    column names.  Numeric cells are IEEE-like values whose finite part is an
    exact rational: the development follows null propagation, the
    zero-denominator guards and the ordering of rows, not rounding. *)

From Stdlib Require Import List Bool ZArith QArith Qreduction Qround Qabs.
From Stdlib Require Import String Ascii.
From Stdlib Require Import DecimalString.
From Stdlib Require Import Lia Permutation Sorted.
Import ListNotations.

Set Implicit Arguments.

(** ** Numeric cells *)

Module Float.

(** A float64 cell.  [NaN] is also pandas' missing value.  Finite values are
    kept in lowest terms, so that equal numbers are equal terms. *)
Inductive fval : Type :=
| NaN
| PInf
| NInf
| Fin (q : Q).

Definition fin (q : Q) : fval := Fin (Qred q).

Definition of_Z (z : Z) : fval := Fin (inject_Z z).

Definition isna (x : fval) : bool :=
  match x with NaN => true | _ => false end.

Definition notna (x : fval) : bool := negb (isna x).

Definition is_finite (x : fval) : bool :=
  match x with Fin _ => true | _ => false end.

(** Sign of a value that is not [NaN]. *)
Definition sign (x : fval) : comparison :=
  match x with
  | NaN => Eq
  | PInf => Gt
  | NInf => Lt
  | Fin q => q ?= 0
  end.

Definition fneg (x : fval) : fval :=
  match x with
  | NaN => NaN
  | PInf => NInf
  | NInf => PInf
  | Fin q => fin (- q)
  end.

Definition fadd (x y : fval) : fval :=
  match x, y with
  | NaN, _ | _, NaN => NaN
  | PInf, NInf | NInf, PInf => NaN
  | PInf, _ | _, PInf => PInf
  | NInf, _ | _, NInf => NInf
  | Fin a, Fin b => fin (a + b)
  end.

Definition fsub (x y : fval) : fval :=
  match x, y with
  | NaN, _ | _, NaN => NaN
  | PInf, PInf | NInf, NInf => NaN
  | PInf, _ | _, NInf => PInf
  | NInf, _ | _, PInf => NInf
  | Fin a, Fin b => fin (a - b)
  end.

Definition signed_inf (s : comparison) : fval :=
  match s with Gt => PInf | Lt => NInf | Eq => NaN end.

Definition sign_mul (s t : comparison) : comparison :=
  match s, t with
  | Eq, _ | _, Eq => Eq
  | Gt, Gt | Lt, Lt => Gt
  | Gt, Lt | Lt, Gt => Lt
  end.

Definition fmul (x y : fval) : fval :=
  match x, y with
  | NaN, _ | _, NaN => NaN
  | Fin a, Fin b => fin (a * b)
  | _, _ => signed_inf (sign_mul (sign x) (sign y))
  end.

(** Division never raises on float columns: a zero divisor gives an
    infinity, or [NaN] for [0 / 0]. *)
Definition fdiv (x y : fval) : fval :=
  match x, y with
  | NaN, _ | _, NaN => NaN
  | Fin a, Fin b =>
      if Qeq_bool b 0 then signed_inf (a ?= 0) else fin (a / b)
  | Fin _, _ => Fin 0
  | _, Fin b =>
      if Qeq_bool b 0 then x else signed_inf (sign_mul (sign x) (b ?= 0))
  | _, _ => NaN
  end.

(** Comparisons; every ordered comparison with [NaN] is false. *)
Definition fcompare (x y : fval) : option comparison :=
  match x, y with
  | NaN, _ | _, NaN => None
  | PInf, PInf | NInf, NInf => Some Eq
  | PInf, _ | _, NInf => Some Gt
  | NInf, _ | _, PInf => Some Lt
  | Fin a, Fin b => Some (a ?= b)
  end.

Definition flt (x y : fval) : bool :=
  match fcompare x y with Some Lt => true | _ => false end.
Definition fgt (x y : fval) : bool :=
  match fcompare x y with Some Gt => true | _ => false end.
Definition fle (x y : fval) : bool :=
  match fcompare x y with Some Lt | Some Eq => true | _ => false end.
Definition fge (x y : fval) : bool :=
  match fcompare x y with Some Gt | Some Eq => true | _ => false end.
Definition feq (x y : fval) : bool :=
  match fcompare x y with Some Eq => true | _ => false end.
(** [x != y] is the negation of [==], hence true when either side is [NaN]. *)
Definition fne (x y : fval) : bool := negb (feq x y).

Definition is_zero (x : fval) : bool := feq x (Fin 0).

(** [Series.fillna(v)] on one cell. *)
Definition fillna (v x : fval) : fval :=
  match x with NaN => v | _ => x end.

(** [Series.replace(a, b)] on one cell: cells equal to [a] become [b]. *)
Definition replace (a b x : fval) : fval := if feq x a then b else x.

(** [Series.clip(lower, upper)] on one cell; a missing bound is not applied
    and a missing cell stays missing. *)
Definition clip (lower upper : option fval) (x : fval) : fval :=
  let x1 := match lower with
            | Some l => if flt x l then l else x
            | None => x
            end in
  match upper with
  | Some u => if fgt x1 u then u else x1
  | None => x1
  end.

(** [np.where(cond, a, b)] on one row. *)
Definition np_where (cond : bool) (a b : fval) : fval :=
  if cond then a else b.

(** Square root of a rational, rounded down to twelve decimal places; it is
    [0] exactly on values that are not positive. *)
Definition sqrt_scale : Z := 10 ^ 12.

Definition Qsqrt (q : Q) : Q :=
  Qmake (Z.sqrt (Qnum q * Zpos (Qden q) * (sqrt_scale * sqrt_scale)))
        (Qden q * Z.to_pos sqrt_scale).

Definition fsqrt (x : fval) : fval :=
  match x with
  | NaN | NInf => NaN
  | PInf => PInf
  | Fin q => if Qle_bool 0 q then fin (Qsqrt q) else NaN
  end.

(** Numeric literals of the source. *)
Definition lit (q : Q) : fval := fin q.

(** [Series.astype(int)] on a present cell: truncation towards zero.  The
    pipeline only applies it, after [fillna(0)], to flags and counts of
    flags; pandas refuses to cast an infinite cell, which such a column
    never holds and which is left as it is here. *)
Definition astype_int (x : fval) : fval :=
  match x with
  | Fin q => of_Z (Z.quot (Qnum q) (Zpos (Qden q)))
  | _ => x
  end.

End Float.
Export Float.

Declare Scope fval_scope.
Delimit Scope fval_scope with F.
Infix "+" := fadd : fval_scope.
Infix "-" := fsub : fval_scope.
Infix "*" := fmul : fval_scope.
Infix "/" := fdiv : fval_scope.

(** ** Tables and the pandas operations the pipeline uses *)

Module Pandas.

Local Open Scope string_scope.
Local Open Scope list_scope.

(** The two exceptions of the pipeline: a missing column looked up by name,
    and the schema validation of the composite metric engine. *)
Inductive exn : Type :=
| KeyError (col : string)
| ValueError (msg : string) (cols : list string).

Inductive result (A : Type) : Type :=
| Ok (a : A)
| Raise (e : exn).
Arguments Ok {A} a.
Arguments Raise {A} e.

(** A table: its column labels in order and its rows in index order. *)
Record DataFrame (A : Type) : Type := mkDF {
  columns : list string;
  rows : list A
}.
Arguments mkDF {A} columns rows.

Definition has_column (cols : list string) (c : string) : bool :=
  existsb (String.eqb c) cols.

(** The first label of [used], in order of use, that the table lacks. *)
Definition first_missing (cols used : list string) : option string :=
  find (fun c => negb (has_column cols c)) used.

(** [df[c] = ...]: an existing column is overwritten in place, a new one is
    appended. *)
Definition set_column (cols : list string) (c : string) : list string :=
  if has_column cols c then cols else cols ++ [c].

Definition set_columns (cols new : list string) : list string :=
  fold_left set_column new cols.

(** [df.head(n)]. *)
Definition head {A : Type} (n : nat) (l : list A) : list A := firstn n l.

(** *** Reductions over a Series, missing cells skipped *)

Definition dropna (x : list fval) : list fval := filter notna x.

Definition count (x : list fval) : nat := List.length (dropna x).

Definition sum (x : list fval) : fval := fold_left fadd (dropna x) (Fin 0).

Definition of_nat (n : nat) : fval := of_Z (Z.of_nat n).

(** [Series.mean()]: [NaN] when no cell is present. *)
Definition mean (x : list fval) : fval :=
  match count x with
  | O => NaN
  | n => fdiv (sum x) (of_nat n)
  end.

Definition square (x : fval) : fval := fmul x x.

(** [Series.var()] with the default [ddof=1]: fewer than two cells present
    give [NaN]. *)
Definition var (x : list fval) : fval :=
  let n := count x in
  if (n <=? 1)%nat then NaN
  else
    let avg := fdiv (sum x) (of_nat n) in
    let sqr := map (fun v => square (fsub avg v)) (dropna x) in
    fdiv (fold_left fadd sqr (Fin 0)) (of_nat (n - 1)).

(** [Series.std()]. *)
Definition std (x : list fval) : fval := fsqrt (var x).

(** Ascending insertion of one value among values that are not [NaN]. *)
Fixpoint insert_asc (v : fval) (l : list fval) : list fval :=
  match l with
  | [] => [v]
  | w :: l' => if fle v w then v :: l else w :: insert_asc v l'
  end.

Definition sort_asc (l : list fval) : list fval :=
  fold_right insert_asc [] l.

(** Linear interpolation between two neighbours, as numpy computes it. *)
Definition lerp (a b t : fval) : fval :=
  let diff := fsub b a in
  if fge t (lit 0.5) then fsub b (fmul diff (fsub (Fin 1) t))
  else fadd a (fmul diff t).

(** [Series.quantile(q)] with the default linear interpolation, for
    [0 <= q <= 1]: the cell at virtual index [q * (n - 1)] of the sorted
    present cells. *)
Definition quantile (q : Q) (x : list fval) : fval :=
  let s := sort_asc (dropna x) in
  match s with
  | [] => NaN
  | _ =>
      let n := List.length s in
      let pos := (q * inject_Z (Z.of_nat (n - 1)))%Q in
      let lo := Z.to_nat (Qfloor pos) in
      let hi := Nat.min (lo + 1) (n - 1) in
      lerp (nth lo s NaN) (nth hi s NaN) (fin (pos - inject_Z (Qfloor pos)))
  end.

(** *** Group-wise transforms *)

(** The members of the group of [r], in table order. *)
Definition group_of {A K : Type} (eqb : K -> K -> bool) (key : A -> K)
    (df : list A) (r : A) : list A :=
  filter (fun r' => eqb (key r') (key r)) df.

(** The divisor of the z-score lambdas:
    [x.std() if x.std() != 0 else 1]. *)
Definition std_or_one (x : list fval) : fval :=
  if fne (std x) (Fin 0) then std x else Fin 1.

(** [lambda x: (x - x.mean()) / (x.std() if x.std() != 0 else 1)] at the
    cell [v] of the group [x]. *)
Definition zscore (x : list fval) (v : fval) : fval :=
  fdiv (fsub v (mean x)) (std_or_one x).

(** [lambda x: (x.mean() - x) / (x.std() if x.std() != 0 else 1)]. *)
Definition zscore_decline (x : list fval) (v : fval) : fval :=
  fdiv (fsub (mean x) v) (std_or_one x).


(** [df.groupby(key)[metric].transform(f)] at row [r]. *)
Definition transform {A K : Type} (eqb : K -> K -> bool) (key : A -> K)
    (metric : A -> fval) (f : list fval -> fval -> fval)
    (df : list A) (r : A) : fval :=
  f (map metric (group_of eqb key df r)) (metric r).

(** [df.groupby(key)[metric].shift(1)]: for each row the cell of the
    previous row of the same group, [NaN] for the first row of a group.
    [seen] holds the rows already passed, most recent first. *)
Fixpoint shift_from {A K : Type} (eqb : K -> K -> bool) (key : A -> K)
    (metric : A -> fval) (seen : list A) (l : list A) : list fval :=
  match l with
  | [] => []
  | r :: l' =>
      match find (fun p => eqb (key p) (key r)) seen with
      | Some p => metric p
      | None => NaN
      end :: shift_from eqb key metric (r :: seen) l'
  end.

Definition group_shift {A K : Type} (eqb : K -> K -> bool) (key : A -> K)
    (metric : A -> fval) (l : list A) : list fval :=
  shift_from eqb key metric [] l.

(** *** Sorting *)

(** Stable insertion: [x] goes before the first element it is not above. *)
Fixpoint insert_by {A : Type} (leb : A -> A -> bool) (x : A) (l : list A)
    : list A :=
  match l with
  | [] => [x]
  | y :: l' => if leb x y then x :: l else y :: insert_by leb x l'
  end.

(** [sort_values] on several columns: pandas sorts lexicographically with a
    stable sort, so rows with equal keys keep their order. *)
Definition sort_stable {A : Type} (leb : A -> A -> bool) (l : list A)
    : list A :=
  fold_right (insert_by leb) [] l.

(** [sort_values(col, ascending=False)] on one column, with the default
    [kind='quicksort'] and [na_position='last'].  pandas hands the present
    cells to numpy's quicksort, which is not a stable sort: the only
    contract is that the rows with a present cell come out in descending
    order, followed by the rows whose cell is missing in their original
    order. *)
Definition sort_values_desc_by {A : Type} (isnull : A -> bool)
    (ge : A -> A -> bool) (l out : list A) : Prop :=
  exists present,
    Permutation (filter (fun r => negb (isnull r)) l) present /\
    StronglySorted (fun a b => ge a b = true) present /\
    out = present ++ filter isnull l.

(** The same on a numeric column. *)
Definition sort_values_desc {A : Type} (key : A -> fval) (l out : list A)
    : Prop :=
  sort_values_desc_by (fun r => isna (key r))
    (fun a b => fge (key a) (key b)) l out.



End Pandas.
Export Pandas.

(** ** The canonical player-season table *)

Module Canonical.

Local Open Scope string_scope.
Local Open Scope list_scope.

(** One row of the fused table.  The identity columns are typed; every
    other column is numeric and read by its label.  Which labels the table
    really has is recorded in [columns]; a cell of an absent column is
    never read, the lookup raises first. *)
Record Row : Type := mkRow {
  player_id : string;
  player_display_name : string;
  position : string;
  recent_team : string;
  season : Z;
  num : string -> fval
}.

(** [df[c]] at row [r]. *)
Definition col (c : string) (r : Row) : fval := num r c.

(** [df[c] = v] at row [r]. *)
Definition set (c : string) (v : fval) (r : Row) : Row :=
  {| player_id := player_id r;
     player_display_name := player_display_name r;
     position := position r;
     recent_team := recent_team r;
     season := season r;
     num := fun c' => if String.eqb c' c then v else num r c' |}.

(** A run of column assignments, in order: the last write to a label wins. *)
Definition set_all (cs : list (string * fval)) (r : Row) : Row :=
  fold_left (fun r' cv => set (fst cv) (snd cv) r') cs r.

(** A row given by its identity cells and the numeric cells that are
    present; every other numeric cell is missing. *)
Definition cells_of (cs : list (string * fval)) (c : string) : fval :=
  match find (fun kv => fst kv =? c) cs with
  | Some kv => snd kv
  | None => NaN
  end.

Definition row_of (id pos : string) (year : Z) (cs : list (string * fval))
    : Row :=
  mkRow id id pos "" year (cells_of cs).

Definition Table : Type := DataFrame Row.

(** [df[c]] raises [KeyError] when the label is absent. *)
Definition require (used : list string) (df : Table) : result unit :=
  match first_missing (columns df) used with
  | Some c => Raise (KeyError c)
  | None => Ok tt
  end.

(** The per-touch rate of both modules: rushing yards per carry for
    running backs, receiving yards per target for everyone else, a zero
    count being replaced by one. *)
Definition per_touch_yards (r : Row) : fval :=
  np_where (position r =? "RB")
    (col "rushing_yards" r / replace (Fin 0) (Fin 1) (col "carries" r))%F
    (col "receiving_yards" r / replace (Fin 0) (Fin 1) (col "targets" r))%F.

(** Ascending order on a (text, integer) key: [sort_values] on two
    columns compares the first, then the second. *)
Definition key_leb (a b : string * Z) : bool :=
  match String.compare (fst a) (fst b) with
  | Lt => true
  | Gt => false
  | Eq => (snd a <=? snd b)%Z
  end.

Definition player_season (r : Row) : string * Z := (player_id r, season r).

(** Grouping keys. *)
Definition position_season (r : Row) : string * Z := (position r, season r).

Definition position_season_eqb (a b : string * Z) : bool :=
  (fst a =? fst b) && (snd a =? snd b)%Z.


End Canonical.
Export Canonical.

(** ** Trajectory module: [add_trajectory_metrics] *)

Module Trajectory.

Local Open Scope string_scope.
Local Open Scope list_scope.

(** The order of [df.sort_values(['player_id', 'season'])]. *)
Definition player_season_leb (a b : Row) : bool :=
  key_leb (player_season a) (player_season b).

(** Step 1: [raw_per_touch_yards]. *)
Definition with_raw (r : Row) : Row :=
  set "raw_per_touch_yards" (per_touch_yards r) r.

(** Step 2: [prev_efficiency] is the previous cell of the same player, and
    [efficiency_delta] the difference to it. *)
Definition with_delta (rp : Row * fval) : Row :=
  let r := set "prev_efficiency" (snd rp) (fst rp) in
  set "efficiency_delta"
    (col "raw_per_touch_yards" r - col "prev_efficiency" r)%F r.

Definition with_prev (l : list Row) : list Row :=
  map with_delta
    (combine l (group_shift String.eqb player_id (col "raw_per_touch_yards") l)).

(** Step 3: [norm_trajectory], the z-score of the delta within the rows of
    the same position and season. *)
Definition norm_trajectory (df : list Row) (r : Row) : fval :=
  transform position_season_eqb position_season (col "efficiency_delta")
    zscore df r.

Definition with_norm (l : list Row) : list Row :=
  map (fun r => set "norm_trajectory" (norm_trajectory l r) r) l.

(** Labels read, in the order the source reads them. *)
Definition sort_keys : list string := ["player_id"; "season"].
Definition inputs : list string :=
  ["position"; "rushing_yards"; "carries"; "receiving_yards"; "targets"].
Definition outputs : list string :=
  ["raw_per_touch_yards"; "prev_efficiency"; "efficiency_delta";
   "norm_trajectory"].

Definition add_trajectory_metrics (df : Table) : result Table :=
  match require (sort_keys ++ inputs) df with
  | Raise e => Raise e
  | Ok _ =>
      let sorted := sort_stable player_season_leb (rows df) in
      Ok (mkDF (set_columns (columns df) outputs)
               (with_norm (with_prev (map with_raw sorted))))
  end.

End Trajectory.
Export Trajectory.

(** ** Composite metric engine: [calculate_composite_metrics] *)

Module Composite.

Local Open Scope string_scope.
Local Open Scope list_scope.

Definition required_cols : list string :=
  ["team_carries"; "team_rushing_yards"; "team_rushing_tds";
   "team_receptions"; "team_receiving_yards"; "team_receiving_tds";
   "team_attempts"].

(** [col c r] with a missing cell read as [0]: [df[c].fillna(0)]. *)
Definition fill0 (c : string) (r : Row) : fval := fillna (Fin 0) (col c r).

(** [df[c].replace(0, 1)]. *)
Definition nonzero (c : string) (r : Row) : fval :=
  replace (Fin 0) (Fin 1) (col c r).

(** *** Universal metrics *)

Definition get_age_multiplier (row : Row) : fval :=
  if isna (col "season_age" row) then lit 1.0
  else
    let age := col "season_age" row in
    let pos := position row in
    if ((pos =? "RB") && fle (Fin 24) age && fle age (Fin 26))
       || (((pos =? "WR") || (pos =? "TE"))
           && fle (Fin 26) age && fle age (Fin 28))
    then lit 1.2
    else if fle age (Fin 30) then lit 1.0
    else lit 0.85.

Definition age_prime_multiplier (r : Row) : fval := get_age_multiplier r.

Definition age_adjusted_fpg (r : Row) : fval :=
  (col "fantasy_points_per_game" r * age_prime_multiplier r)%F.

Definition contract_year_boost (r : Row) : fval :=
  (astype_int (fill0 "is_contract_year" r)
   * col "fantasy_points_per_game" r)%F.

(** *** Quarterback metrics *)

Definition designed_rush_share (r : Row) : fval :=
  np_where (fgt (fill0 "carries" r) (Fin 0))
    (fill0 "rpo_rush_att" r / col "carries" r)%F
    (Fin 0).

Definition scramble_rush_share (r : Row) : fval :=
  np_where (fgt (fill0 "carries" r) (Fin 0))
    (fill0 "scrambles" r / col "carries" r)%F
    (Fin 0).

Definition dual_threat_score (r : Row) : fval :=
  ((designed_rush_share r + scramble_rush_share r)
   * fill0 "scramble_yards_per_attempt" r)%F.

Definition pressure_resilience (r : Row) : fval :=
  np_where (fgt (fill0 "pressure_pct" r) (Fin 0))
    (fill0 "passing_epa" r
     / (fillna (Fin 1) (col "attempts" r) * col "pressure_pct" r))%F
    (Fin 0).

Definition true_passing_talent (r : Row) : fval :=
  (fill0 "on_tgt_pct" r * lit 0.4
   + (Fin 1 - fill0 "bad_throw_pct" r) * lit 0.3
   + (Fin 1 - fill0 "is_interception_worthy" r) * lit 0.2
   + fill0 "intended_air_yards_per_pass_attempt" r / Fin 10 * lit 0.1)%F.

(** *** Running-back metrics *)

Definition team_touches (r : Row) : fval :=
  (col "team_carries" r + col "team_receptions" r)%F.

Definition total_touch_share (r : Row) : fval :=
  np_where (fgt (team_touches r) (Fin 0))
    ((fill0 "carries" r + fill0 "receptions" r) / team_touches r)%F
    (Fin 0).

Definition contact_balance (r : Row) : fval :=
  np_where (fgt (fill0 "rush_ybc_att" r) (Fin 0))
    (fill0 "rush_yac_att" r / col "rush_ybc_att" r)%F
    (Fin 0).

Definition rb_elusiveness_index (r : Row) : fval :=
  np_where (fgt (fill0 "carries" r) (Fin 0))
    (fill0 "rush_brk_tkl" r / col "carries" r)%F
    (Fin 0).

Definition rb_drive_dependency (r : Row) : fval :=
  np_where (fgt (fill0 "carries" r) (Fin 0))
    (fill0 "rush_x1d" r / col "carries" r)%F
    (Fin 0).

Definition receiving_back_score (r : Row) : fval :=
  (fill0 "target_share" r * Fin 2
   + fill0 "rec_yac_r" r / Fin 10
   + fill0 "receptions" r / nonzero "games" r)%F.

Definition rb_complete_game (r : Row) : fval :=
  (total_touch_share r * Fin 3
   + rb_elusiveness_index r * Fin 10
   + receiving_back_score r * lit 0.5
   + (fill0 "rushing_tds" r + fill0 "receiving_tds" r)
     / nonzero "games" r)%F.

Definition weighted_touches (r : Row) : fval :=
  (fill0 "targets" r * lit 2.8 + fill0 "carries" r)%F.

Definition workhorse_score (r : Row) : fval :=
  np_where (fgt (col "games" r) (Fin 0))
    (weighted_touches r / col "games" r)%F
    (Fin 0).

(** *** Receiver metrics *)

(** First definition of [yptmpa]; it is overwritten further down. *)
Definition yptmpa_first (r : Row) : fval :=
  np_where (fgt (fill0 "team_attempts" r) (Fin 0))
    (fill0 "receiving_yards" r / col "team_attempts" r)%F
    (Fin 0).

Definition separation_index (r : Row) : fval :=
  np_where (fgt (fill0 "rec_adot" r) (Fin 0))
    (fill0 "rec_ybc_r" r / col "rec_adot" r)%F
    (Fin 0).

Definition yac_creator (r : Row) : fval :=
  np_where (fgt (fill0 "rec_ybc_r" r + fill0 "rec_yac_r" r)%F (Fin 0))
    (fill0 "rec_yac_r" r / (fill0 "rec_ybc_r" r + fill0 "rec_yac_r" r))%F
    (Fin 0).

Definition wr_elusiveness_index (r : Row) : fval :=
  np_where (fgt (fill0 "receptions" r) (Fin 0))
    (fill0 "rec_brk_tkl" r / col "receptions" r)%F
    (Fin 0).

Definition receiver_drive_dependency (r : Row) : fval :=
  np_where (fgt (fill0 "receptions" r) (Fin 0))
    (fill0 "rec_x1d" r / col "receptions" r)%F
    (Fin 0).

Definition target_value (r : Row) : fval :=
  np_where (position r =? "RB")
    (np_where (fgt (weighted_touches r) (Fin 0))
       (col "fantasy_points_half_ppr" r / weighted_touches r)%F
       (Fin 0))
    (np_where (fgt (col "targets" r) (Fin 0))
       (col "fantasy_points_half_ppr" r / col "targets" r)%F
       (Fin 0)).

Definition receiver_creation_adj (r : Row) : fval :=
  np_where (fgt (fillna (Fin 1) (col "season_age" r)) (Fin 0))
    ((fill0 "rec_yac_r" r + fill0 "rec_brk_tkl" r * Fin 2)
     / col "season_age" r)%F
    (Fin 0).

Definition true_catch_rate (r : Row) : fval :=
  np_where (fgt (fill0 "is_catchable_ball" r) (Fin 0))
    (fill0 "receptions" r / col "is_catchable_ball" r)%F
    (Fin 0).

Definition drop_adjusted_target_value (r : Row) : fval :=
  (target_value r * (Fin 1 - fill0 "rec_drop_percent" r))%F.

(** Only computed from the charting counts when the table has them. *)
Definition contested_catch_rate (has_contested : bool) (r : Row) : fval :=
  if has_contested then
    np_where (fgt (astype_int (fill0 "is_contested_ball" r)) (Fin 0))
      (fill0 "receptions" r / col "is_contested_ball" r)%F
      (Fin 0)
  else Fin 0.

Definition air_yards_conversion (r : Row) : fval :=
  np_where (fgt (fill0 "receiving_air_yards" r) (Fin 0))
    (fill0 "receiving_yards" r / col "receiving_air_yards" r)%F
    (Fin 0).

(** *** Opportunity composites *)

Definition air_yards_share (r : Row) : fval :=
  np_where (fgt (col "team_attempts" r) (Fin 0))
    (fill0 "receiving_air_yards" r / col "team_attempts" r)%F
    (Fin 0).

Definition wopr (r : Row) : fval :=
  (lit 1.5 * fill0 "target_share" r + lit 0.7 * air_yards_share r)%F.

Definition rec_yards_share (r : Row) : fval :=
  np_where (fgt (col "team_receiving_yards" r) (Fin 0))
    (fill0 "receiving_yards" r / col "team_receiving_yards" r)%F
    (Fin 0).

Definition rec_td_share (r : Row) : fval :=
  np_where (fgt (col "team_receiving_tds" r) (Fin 0))
    (fill0 "receiving_tds" r / col "team_receiving_tds" r)%F
    (Fin 0).

Definition dominator_rating (r : Row) : fval :=
  ((rec_yards_share r + rec_td_share r) / Fin 2)%F.

(** Second definition of [yptmpa], the one that survives. *)
Definition yptmpa (r : Row) : fval :=
  np_where (fgt (col "team_attempts" r) (Fin 0))
    (fill0 "receiving_yards" r / col "team_attempts" r)%F
    (Fin 0).

(** *** Dynasty indicators *)

Definition draft_capital_score (r : Row) : fval :=
  np_where (notna (col "draft_round" r))
    (Fin 8 - clip (Some (Fin 1)) (Some (Fin 7)) (col "draft_round" r))%F
    (Fin 0).

Definition years_past_apex (r : Row) : fval :=
  np_where (position r =? "RB")
    (clip (Some (Fin 0)) None (col "season_age" r - lit 24.5)%F)
    (clip (Some (Fin 0)) None (col "season_age" r - lit 26.5)%F).

(** [df.groupby('position')[metric].transform(f)]. *)
Definition by_position (metric : Row -> fval)
    (f : list fval -> fval -> fval) (df : list Row) (r : Row) : fval :=
  transform String.eqb position metric f df r.

Definition norm_age_risk (df : list Row) (r : Row) : fval :=
  by_position years_past_apex zscore df r.

Definition norm_youth_bonus (df : list Row) (r : Row) : fval :=
  (norm_age_risk df r * Fin (-1))%F.

(** *** Breakout *)

Definition arrival_threshold (df : list Row) (r : Row) : fval :=
  by_position (col "fantasy_points_per_game")
    (fun x _ => quantile 0.75 x) df r.

Definition breakout_multiplier (df : list Row) (r : Row) : fval :=
  np_where (flt (col "fantasy_points_per_game" r) (arrival_threshold df r))
    (lit 1.2) (lit 0.7).

Definition norm_target_value (df : list Row) (r : Row) : fval :=
  by_position target_value zscore df r.

Definition norm_target_share (df : list Row) (r : Row) : fval :=
  by_position (col "target_share") zscore df r.

Definition raw_efficiency (r : Row) : fval :=
  np_where (position r =? "RB")
    (fill0 "rush_yac_att" r)
    (fillna (Fin 0) (yptmpa r)).

Definition norm_efficiency (df : list Row) (r : Row) : fval :=
  by_position raw_efficiency zscore df r.

(** The five weighted terms of the breakout score, before any gate. *)
Definition breakout_combination (df : list Row) (r : Row) : fval :=
  (draft_capital_score r * lit 0.15
   + norm_youth_bonus df r * lit 0.20
   + norm_target_value df r * lit 0.25
   + norm_efficiency df r * lit 0.25
   + (Fin 1 - fillna (Fin 0) (norm_target_share df r)) * lit 0.15)%F.

(** [breakout_score] as first assigned. *)
Definition breakout_score_first (df : list Row) (r : Row) : fval :=
  (breakout_combination df r * breakout_multiplier df r)%F.

Definition arrival_multiplier (df : list Row) (r : Row) : fval :=
  np_where (flt (col "fantasy_points_per_game" r) (arrival_threshold df r))
    (lit 1.2) (lit 0.7).

(** [breakout_score] after [df['breakout_score'] *= df['arrival_multiplier']]. *)
Definition breakout_score (df : list Row) (r : Row) : fval :=
  (breakout_score_first df r * arrival_multiplier df r)%F.

(** *** Sell high *)

Definition value_threshold (df : list Row) (r : Row) : fval :=
  by_position (col "fantasy_points_per_game")
    (fun x _ => quantile 0.60 x) df r.

Definition market_value_multiplier (df : list Row) (r : Row) : fval :=
  np_where (fge (col "fantasy_points_per_game" r) (value_threshold df r))
    (lit 1.3) (lit 0.5).

(** [raw_per_touch_yards] is computed again, with the formula of the
    trajectory module. *)
Definition raw_per_touch_yards (r : Row) : fval := per_touch_yards r.

Definition norm_ypa_decline (df : list Row) (r : Row) : fval :=
  by_position raw_per_touch_yards zscore_decline df r.

(** The four weighted terms of the sell-high score, before the gate.
    [norm_trajectory] is the column the trajectory module left. *)
Definition sell_high_combination (df : list Row) (r : Row) : fval :=
  (norm_age_risk df r * lit 0.20
   + norm_target_share df r * lit 0.25
   + norm_efficiency df r * lit (-0.30)
   + col "norm_trajectory" r * lit (-0.25))%F.

Definition sell_high_score (df : list Row) (r : Row) : fval :=
  (sell_high_combination df r * market_value_multiplier df r)%F.

(** *** Buy low *)

Definition air_yards_differential (r : Row) : fval :=
  (fill0 "receiving_air_yards" r - fill0 "receiving_yards" r)%F.

Definition buy_low_score (df : list Row) (r : Row) : fval :=
  (clip (Some (Fin 0)) (Some (Fin 5)) (air_yards_differential r / Fin 100)
     * lit 0.30
   + norm_youth_bonus df r * lit 0.20
   + fill0 "target_share" r * Fin 10 * lit 0.25
   + draft_capital_score r * lit 0.15
   + clip (Some (Fin 0)) (Some (Fin 2))
       (Fin 1 / (col "fantasy_points_per_game" r + lit 0.1))
     * lit 0.10)%F.

Definition consistency_score (r : Row) : fval :=
  np_where (fgt (col "games" r) (Fin 8))
    (col "fantasy_points_per_game" r / nonzero "games" r)%F
    (Fin 0).

(** *** The weight vectors and the guarded rates, as tables *)

(** [t1 * w1 + t2 * w2 + ...], added from the left as the source writes
    its sums. *)
Definition weighted_sum (terms : list (fval * Q)) : fval :=
  match terms with
  | [] => Fin 0
  | tw :: rest =>
      fold_left (fun acc tw' => (acc + fst tw' * lit (snd tw'))%F) rest
        (fst tw * lit (snd tw))%F
  end.

Definition total_weight (ws : list Q) : Q := fold_right Qplus 0 ws.

Definition breakout_weights : list Q := [0.15; 0.20; 0.25; 0.25; 0.15].
Definition sell_high_weights : list Q := [0.20; 0.25; -0.30; -0.25].
Definition buy_low_weights : list Q := [0.30; 0.20; 0.25; 0.15; 0.10].

Definition breakout_terms (df : list Row) (r : Row) : list fval :=
  [draft_capital_score r; norm_youth_bonus df r; norm_target_value df r;
   norm_efficiency df r;
   (Fin 1 - fillna (Fin 0) (norm_target_share df r))%F].

Definition sell_high_terms (df : list Row) (r : Row) : list fval :=
  [norm_age_risk df r; norm_target_share df r; norm_efficiency df r;
   col "norm_trajectory" r].

Definition buy_low_terms (df : list Row) (r : Row) : list fval :=
  [clip (Some (Fin 0)) (Some (Fin 5)) (air_yards_differential r / Fin 100)%F;
   norm_youth_bonus df r;
   (fill0 "target_share" r * Fin 10)%F;
   draft_capital_score r;
   clip (Some (Fin 0)) (Some (Fin 2))
     (Fin 1 / (col "fantasy_points_per_game" r + lit 0.1))%F].

(** The share and rate metrics that sit behind an [np.where] guard, each
    with the denominator of its quotient. *)
Definition guarded_rates (has_contested : bool)
    : list (string * (Row -> fval) * (Row -> fval)) :=
  [ ("designed_rush_share", designed_rush_share, col "carries");
    ("scramble_rush_share", scramble_rush_share, col "carries");
    ("total_touch_share", total_touch_share, team_touches);
    ("contact_balance", contact_balance, col "rush_ybc_att");
    ("rb_elusiveness_index", rb_elusiveness_index, col "carries");
    ("rb_drive_dependency", rb_drive_dependency, col "carries");
    ("workhorse_score", workhorse_score, col "games");
    ("yptmpa", yptmpa_first, col "team_attempts");
    ("separation_index", separation_index, col "rec_adot");
    ("yac_creator", yac_creator,
     fun r => (fill0 "rec_ybc_r" r + fill0 "rec_yac_r" r)%F);
    ("wr_elusiveness_index", wr_elusiveness_index, col "receptions");
    ("receiver_drive_dependency", receiver_drive_dependency,
     col "receptions");
    ("target_value", target_value,
     fun r => if position r =? "RB" then weighted_touches r
              else col "targets" r);
    ("receiver_creation_adj", receiver_creation_adj, col "season_age");
    ("true_catch_rate", true_catch_rate, col "is_catchable_ball");
    ("contested_catch_rate", contested_catch_rate has_contested,
     col "is_contested_ball");
    ("air_yards_conversion", air_yards_conversion,
     col "receiving_air_yards");
    ("air_yards_share", air_yards_share, col "team_attempts");
    ("rec_yards_share", rec_yards_share, col "team_receiving_yards");
    ("rec_td_share", rec_td_share, col "team_receiving_tds");
    ("yptmpa", yptmpa, col "team_attempts") ].

(** *** The function *)

(** One column assignment [df[label] = ...]: the labels it looks up, in
    evaluation order, and the cell it writes at a row of the table [df]. *)
Record assignment : Type := mkAssign {
  label : string;
  reads : list string;
  cell : list Row -> Row -> fval
}.

Definition rowwise (c : string) (rd : list string) (f : Row -> fval)
    : assignment :=
  mkAssign c rd (fun _ r => f r).

(** [df.apply(get_age_multiplier, axis=1)] reads [season_age] of each row
    and [position] only of rows whose age is present.  (On a table without
    rows pandas reports a missing [season_age] in a way that depends on its
    version; it is raised here as for any other table.) *)
Definition apply_reads (df : list Row) : list string :=
  "season_age"
    :: (if existsb (fun r => notna (col "season_age" r)) df
        then ["position"] else []).

(** The assignments of the body, in source order.  [draft_roi] needs a
    logarithm: its label is written but its cells are left as they were,
    nothing in the pipeline reads them. *)
Definition program (df : list Row) (has_contested : bool)
    : list assignment :=
  [ rowwise "draft_roi" ["draft_pick_num"; "fantasy_points_per_game"]
      (col "draft_roi");
    rowwise "age_prime_multiplier" (apply_reads df) age_prime_multiplier;
    rowwise "age_adjusted_fpg"
      ["fantasy_points_per_game"; "age_prime_multiplier"] age_adjusted_fpg;
    rowwise "contract_year_boost"
      ["is_contract_year"; "fantasy_points_per_game"] contract_year_boost;
    rowwise "designed_rush_share" ["carries"; "rpo_rush_att"]
      designed_rush_share;
    rowwise "scramble_rush_share" ["carries"; "scrambles"]
      scramble_rush_share;
    rowwise "dual_threat_score"
      ["designed_rush_share"; "scramble_rush_share";
       "scramble_yards_per_attempt"] dual_threat_score;
    rowwise "pressure_resilience" ["pressure_pct"; "passing_epa"; "attempts"]
      pressure_resilience;
    rowwise "true_passing_talent"
      ["on_tgt_pct"; "bad_throw_pct"; "is_interception_worthy";
       "intended_air_yards_per_pass_attempt"] true_passing_talent;
    rowwise "total_touch_share"
      ["team_carries"; "team_receptions"; "carries"; "receptions"]
      total_touch_share;
    rowwise "contact_balance" ["rush_ybc_att"; "rush_yac_att"]
      contact_balance;
    rowwise "rb_elusiveness_index" ["carries"; "rush_brk_tkl"]
      rb_elusiveness_index;
    rowwise "rb_drive_dependency" ["carries"; "rush_x1d"]
      rb_drive_dependency;
    rowwise "receiving_back_score"
      ["target_share"; "rec_yac_r"; "receptions"; "games"]
      receiving_back_score;
    rowwise "rb_complete_game"
      ["total_touch_share"; "rb_elusiveness_index"; "receiving_back_score";
       "rushing_tds"; "receiving_tds"; "games"] rb_complete_game;
    rowwise "weighted_touches" ["targets"; "carries"] weighted_touches;
    rowwise "workhorse_score" ["games"; "weighted_touches"] workhorse_score;
    rowwise "yptmpa" ["team_attempts"; "receiving_yards"] yptmpa_first;
    rowwise "separation_index" ["rec_adot"; "rec_ybc_r"] separation_index;
    rowwise "yac_creator" ["rec_ybc_r"; "rec_yac_r"] yac_creator;
    rowwise "wr_elusiveness_index" ["receptions"; "rec_brk_tkl"]
      wr_elusiveness_index;
    rowwise "receiver_drive_dependency" ["receptions"; "rec_x1d"]
      receiver_drive_dependency;
    rowwise "target_value"
      ["position"; "weighted_touches"; "fantasy_points_half_ppr"; "targets"]
      target_value;
    rowwise "receiver_creation_adj"
      ["season_age"; "rec_yac_r"; "rec_brk_tkl"] receiver_creation_adj;
    rowwise "true_catch_rate" ["is_catchable_ball"; "receptions"]
      true_catch_rate;
    rowwise "drop_adjusted_target_value"
      ["target_value"; "rec_drop_percent"] drop_adjusted_target_value;
    rowwise "contested_catch_rate"
      (if has_contested then ["is_contested_ball"; "receptions"] else [])
      (contested_catch_rate has_contested);
    rowwise "air_yards_conversion" ["receiving_air_yards"; "receiving_yards"]
      air_yards_conversion;
    rowwise "air_yards_share" ["team_attempts"; "receiving_air_yards"]
      air_yards_share;
    rowwise "wopr" ["target_share"; "air_yards_share"] wopr;
    rowwise "rec_yards_share" ["team_receiving_yards"; "receiving_yards"]
      rec_yards_share;
    rowwise "rec_td_share" ["team_receiving_tds"; "receiving_tds"]
      rec_td_share;
    rowwise "dominator_rating" ["rec_yards_share"; "rec_td_share"]
      dominator_rating;
    rowwise "yptmpa" ["team_attempts"; "receiving_yards"] yptmpa;
    rowwise "draft_capital_score" ["draft_round"] draft_capital_score;
    rowwise "years_past_apex" ["position"; "season_age"] years_past_apex;
    mkAssign "norm_age_risk" ["position"; "years_past_apex"] norm_age_risk;
    mkAssign "norm_youth_bonus" ["norm_age_risk"] norm_youth_bonus;
    mkAssign "arrival_threshold" ["position"; "fantasy_points_per_game"]
      arrival_threshold;
    mkAssign "breakout_multiplier"
      ["fantasy_points_per_game"; "arrival_threshold"] breakout_multiplier;
    mkAssign "norm_target_value" ["position"; "target_value"]
      norm_target_value;
    mkAssign "norm_target_share" ["position"; "target_share"]
      norm_target_share;
    rowwise "raw_efficiency" ["position"; "rush_yac_att"; "yptmpa"]
      raw_efficiency;
    mkAssign "norm_efficiency" ["position"; "raw_efficiency"]
      norm_efficiency;
    mkAssign "breakout_score"
      ["draft_capital_score"; "norm_youth_bonus"; "norm_target_value";
       "norm_efficiency"; "norm_target_share"; "breakout_multiplier"]
      breakout_score_first;
    mkAssign "arrival_multiplier"
      ["fantasy_points_per_game"; "arrival_threshold"] arrival_multiplier;
    mkAssign "breakout_score" ["breakout_score"; "arrival_multiplier"]
      breakout_score;
    mkAssign "value_threshold" ["position"; "fantasy_points_per_game"]
      value_threshold;
    mkAssign "market_value_multiplier"
      ["fantasy_points_per_game"; "value_threshold"]
      market_value_multiplier;
    rowwise "raw_per_touch_yards"
      ["position"; "rushing_yards"; "carries"; "receiving_yards"; "targets"]
      raw_per_touch_yards;
    mkAssign "norm_ypa_decline" ["position"; "raw_per_touch_yards"]
      norm_ypa_decline;
    mkAssign "sell_high_score"
      ["norm_age_risk"; "norm_target_share"; "norm_efficiency";
       "norm_trajectory"; "market_value_multiplier"] sell_high_score;
    rowwise "air_yards_differential"
      ["receiving_air_yards"; "receiving_yards"] air_yards_differential;
    mkAssign "buy_low_score"
      ["air_yards_differential"; "norm_youth_bonus"; "target_share";
       "draft_capital_score"; "fantasy_points_per_game"] buy_low_score;
    rowwise "consistency_score" ["games"; "fantasy_points_per_game"]
      consistency_score ].

(** The labels the body assigns. *)
Definition composite_labels : list string :=
  map label (program [] false).

(** Running the assignments on the labels of the table: the labels after
    the last assignment that completed, how many completed, and the label
    whose lookup failed, if one did. *)
Fixpoint execute (prog : list assignment) (cols : list string) (n : nat)
    : list string * nat * option string :=
  match prog with
  | [] => (cols, n, None)
  | a :: prog' =>
      match first_missing cols (reads a) with
      | Some c => (cols, n, Some c)
      | None => execute prog' (set_column cols (label a)) (S n)
      end
  end.

(** A row after the first [n] assignments.  Every cell is a function of the
    row and table the body started from; a later write to a label replaces
    an earlier one. *)
Definition assigned (prog : list assignment) (n : nat) (df : list Row)
    (r : Row) : Row :=
  set_all (map (fun a => (label a, cell a df r)) (firstn n prog)) r.

(** [df[df["games"] >= 8]]. *)
Definition enough_games (r : Row) : bool := fge (col "games" r) (Fin 8).

(** [[col for col in required_cols if col not in df.columns]]. *)
Definition missing_cols (cols : list string) : list string :=
  filter (fun c => negb (has_column cols c)) required_cols.

Definition schema_error (missing : list string) : exn :=
  ValueError "Missing required team columns: " missing.

(** What a call leaves behind: the copy bound to the local name [df] when
    the call ended ([None] while the name still denotes the caller's own
    table), and the value returned or the exception raised. *)
Record outcome : Type := mkOutcome {
  local : option Table;
  returned : result Table
}.

Definition run_body (cols : list string) (kept : list Row) : outcome :=
  let prog := program kept (has_column cols "is_contested_ball") in
  let '(cols', n, failed) := execute prog cols 0 in
  let df' := mkDF cols' (map (assigned prog n kept) kept) in
  mkOutcome (Some df')
    (match failed with
     | Some c => Raise (KeyError c)
     | None => Ok df'
     end).

Definition run (df : Table) : outcome :=
  match require ["games"] df with
  | Raise e => mkOutcome None (Raise e)
  | Ok _ =>
      let kept := filter enough_games (rows df) in
      match missing_cols (columns df) with
      | [] => run_body (columns df) kept
      | missing =>
          mkOutcome (Some (mkDF (columns df) kept))
                    (Raise (schema_error missing))
      end
  end.

Definition calculate_composite_metrics (df : Table) : result Table :=
  returned (run df).

(** *** The call, with the tables as objects

    The caller passes a reference [arg] to its table.  The row filter
    allocates a copy, to which the local name is rebound; every assignment
    of the body writes to that copy, and the reference returned is the
    copy's.  [None] only for a reference that denotes no table. *)
Definition Store : Type := list Table.

Definition call (arg : nat) (st : Store) : option (Store * result nat) :=
  match nth_error st arg with
  | None => None
  | Some df =>
      let o := run df in
      let '(st', loc) :=
        match local o with
        | None => (st, arg)
        | Some copy => (st ++ [copy], List.length st)
        end in
      Some (st', match returned o with
                 | Ok _ => Ok loc
                 | Raise e => Raise e
                 end)
  end.

End Composite.
Export Composite.

(** ** Segmentation and ranking *)

Module Ranking.

Local Open Scope string_scope.
Local Open Scope list_scope.

Definition is_receiver (r : Row) : bool :=
  (position r =? "WR") || (position r =? "TE").

(** [(position in [WR, TE] & targets >= t) | (position == RB & carries >= c)]. *)
Definition volume_mask (t c : Q) (r : Row) : bool :=
  (is_receiver r && fge (col "targets" r) (Fin t))
  || ((position r =? "RB") && fge (col "carries" r) (Fin c)).

(** The filters of the [breakout] branch, in source order. *)
Definition breakout_rows (l : list Row) : list Row :=
  filter (fun r => fle (col "season_age" r) (Fin 25))
    (filter (volume_mask 25 40)
       (filter (fun r => negb (position r =? "QB")) l)).

(** The breakout row of the threshold table. *)
Definition breakout_eligible (min_games : Q) (r : Row) : Prop :=
  fge (col "games" r) (Fin min_games) = true
  /\ position r <> "QB"
  /\ (((position r = "WR" \/ position r = "TE")
       /\ fge (col "targets" r) (Fin 25) = true)
      \/ (position r = "RB" /\ fge (col "carries" r) (Fin 40) = true))
  /\ fle (col "season_age" r) (Fin 25) = true.

(** The filters of the [sell_high] branch. *)
Definition sell_high_rows (l : list Row) : list Row :=
  filter (fun r => negb (position r =? "QB"))
    (filter (volume_mask 60 80)
       (filter (fun r =>
                  ((position r =? "RB") && fge (col "season_age" r) (Fin 26))
                  || (is_receiver r && fge (col "season_age" r) (Fin 28)))
               l)).

(** The filter of the [buy_low] branch. *)
Definition buy_low_rows (l : list Row) : list Row :=
  filter (fun r => fgt (col "air_yards_differential" r) (Fin 0)) l.

(** Everything of [get_dynasty_candidates] before the final sort: the rows
    kept and the label to sort on, [None] for an unknown candidate type. *)
Definition select_candidates (df : Table) (candidate_type : string)
    (min_games : Q) : result (option (list Row * string)) :=
  match require ["games"] df with
  | Raise e => Raise e
  | Ok _ =>
      let df_filtered :=
        filter (fun r => fge (col "games" r) (Fin min_games)) (rows df) in
      if candidate_type =? "breakout" then
        match require ["position"; "targets"; "carries"; "season_age"] df with
        | Raise e => Raise e
        | Ok _ => Ok (Some (breakout_rows df_filtered, "breakout_score"))
        end
      else if candidate_type =? "sell_high" then
        match require ["position"; "season_age"; "targets"; "carries"] df with
        | Raise e => Raise e
        | Ok _ => Ok (Some (sell_high_rows df_filtered, "sell_high_score"))
        end
      else if candidate_type =? "buy_low" then
        match require ["air_yards_differential"] df with
        | Raise e => Raise e
        | Ok _ => Ok (Some (buy_low_rows df_filtered, "buy_low_score"))
        end
      else Ok None
  end.

(** [get_dynasty_candidates(df, candidate_type, min_games, top_n)] may end
    with [res].  The order of rows with equal scores is left to the sort. *)
Definition get_dynasty_candidates (df : Table) (candidate_type : string)
    (min_games : Q) (top_n : nat) (res : result Table) : Prop :=
  match select_candidates df candidate_type min_games with
  | Raise e => res = Raise e
  | Ok None => res = Ok (mkDF [] [])
  | Ok (Some (df_filtered, sort_col)) =>
      match require [sort_col] df with
      | Raise e => res = Raise e
      | Ok _ =>
          exists sorted,
            sort_values_desc (col sort_col) df_filtered sorted /\
            res = Ok (mkDF (columns df) (head top_n sorted))
      end
  end.

(** *** [generate_dynasty_rankings] *)






End Ranking.
Export Ranking.

(** ** Source normalizer: the advanced-charting tables *)

Module Normalizer.

Local Open Scope string_scope.
Local Open Scope list_scope.

(** One row of an advanced-charting table of one statistical category,
    after its team column has been renamed to [team]. *)
Record PfrRow : Type := mkPfr {
  pfr_id : string;
  pfr_season : Z;
  team : option string;
  pfr_num : string -> fval
}.

(** [s.str.contains(pat)] for a pattern without special characters. *)
Fixpoint contains (pat s : string) : bool :=
  if String.prefix pat s then true
  else match s with
       | EmptyString => false
       | String _ s' => contains pat s'
       end.

(** [astype(str)] on the team cell: a missing cell becomes the text [nan]. *)
Definition astype_str (t : option string) : string :=
  match t with Some s => s | None => "nan" end.

(** [temp_df['team'].astype(str).str.contains('TM', na=False)]. *)
Definition is_total_row (r : PfrRow) : bool :=
  contains "TM" (astype_str (team r)).

Definition pfr_key (r : PfrRow) : string * Z := (pfr_id r, pfr_season r).

(** [groupby(['pfr_id', 'season'])['is_total_row'].transform('any')]. *)
Definition has_total (df : list PfrRow) (r : PfrRow) : bool :=
  existsb is_total_row (group_of position_season_eqb pfr_key df r).

(** Step 3 of the loop body, "Handle Midseason Trades":
    [temp_df[(has_total & is_total_row) | (~has_total)]]. *)
Definition handle_midseason_trades (df : list PfrRow) : list PfrRow :=
  filter (fun r => (has_total df r && is_total_row r) || negb (has_total df r))
         df.

(** The loop runs the step on the table of each statistical category that
    is not empty, one table at a time. *)
Definition normalize_categories (loaded : list (string * list PfrRow))
    : list (string * list PfrRow) :=
  map (fun st => (fst st, handle_midseason_trades (snd st)))
      (filter (fun st => negb (Nat.eqb (List.length (snd st)) 0)) loaded).

End Normalizer.
Export Normalizer.

(** ** Fusion engine: [construct_intelligent_dataset] *)

Module Fusion.

Local Open Scope string_scope.
Local Open Scope list_scope.

(** Rows of the tables the loaders return.  Only the join keys and the
    cells the fusion computes with are typed; the other cells ride along. *)
Record StatRow : Type := mkStat {
  s_player_id : string;
  s_season : Z;
  s_position : string;
  s_recent_team : string;
  s_num : string -> fval
}.

Record TeamRow : Type := mkTeam {
  t_recent_team : string;
  t_season : Z;
  t_num : string -> fval
}.

(** The charting table joined to the identifier crosswalk: a charting
    player without a crosswalk entry has no [player_id]. *)
Record PfrOut : Type := mkPfrOut {
  p_player_id : option string;
  p_season : Z;
  p_num : string -> fval
}.

(** One charted play joined to its receiver. *)
Record FtnPlay : Type := mkPlay {
  receiver_player_id : option string;
  play_season : Z;
  is_catchable_ball : fval;
  is_contested_ball : fval;
  is_drop : fval;
  is_interception_worthy : fval
}.

Record FtnRow : Type := mkFtn {
  f_player_id : string;
  f_season : Z;
  f_catchable : fval;
  f_contested : fval;
  f_drop : fval;
  f_interception_worthy : fval
}.

Record DraftRow : Type := mkDraft {
  d_player_id : option string;
  draft_round : fval;
  draft_pick_num : fval
}.

(** A roster entry; the birth date as (year, month) when it parses. *)
Record RosterRow : Type := mkRoster {
  r_player_id : option string;
  r_season : Z;
  birth_date : option (Z * Z);
  years_exp : fval
}.

Record ContractRow : Type := mkContract {
  c_player_id : string;
  c_season : Z;
  apy : fval;
  contract_years_remaining : fval;
  is_contract_year : fval
}.

Definition opt_eqb (a : option string) (b : string) : bool :=
  match a with Some s => s =? b | None => false end.

(** *** Pieces of the loaders *)

(** [drop_duplicates(subset=key)]: the first row of each key is kept. *)
Fixpoint drop_duplicates {A K : Type} (eqb : K -> K -> bool) (key : A -> K)
    (seen : list K) (l : list A) : list A :=
  match l with
  | [] => []
  | r :: l' =>
      if existsb (eqb (key r)) seen then drop_duplicates eqb key seen l'
      else r :: drop_duplicates eqb key (key r :: seen) l'
  end.

(** [drop_duplicates(subset=key, keep='last')]. *)
Definition drop_duplicates_last {A K : Type} (eqb : K -> K -> bool)
    (key : A -> K) (l : list A) : list A :=
  rev (drop_duplicates eqb key [] (rev l)).

Definition opt_key_eqb (a b : option string * Z) : bool :=
  match fst a, fst b with
  | Some s, Some t => (s =? t) && (snd a =? snd b)%Z
  | None, None => (snd a =? snd b)%Z
  | _, _ => false
  end.

(** A table handed over by a loader is [Some] of its rows, or [None] for
    [pd.DataFrame()], the table that has no row and no column. *)

(** The end of [get_pfr_advstats_combined].  [combined_pfr] is still
    [None] when no statistical category had a row, and the function then
    returns [pd.DataFrame()]; otherwise it is the table merged so far,
    joined to the crosswalk, which goes through
    [drop_duplicates(subset=['player_id', 'season'])]. *)
Definition get_pfr_advstats_combined (combined_pfr : option (list PfrOut))
    : option (list PfrOut) :=
  match combined_pfr with
  | Some merged =>
      Some (drop_duplicates opt_key_eqb
              (fun r => (p_player_id r, p_season r)) [] merged)
  | None => None
  end.

(** Last line of [get_contract_data], on the expanded contract years:
    [pd.DataFrame(all_rows).drop_duplicates(subset=['player_id',
    'season'], keep='last')].  Without an expanded row the frame has no
    column, and [drop_duplicates] returns an empty frame as it is. *)
Definition get_contract_data (all_rows : list ContractRow)
    : option (list ContractRow) :=
  match all_rows with
  | [] => None
  | _ =>
      Some (drop_duplicates_last position_season_eqb
              (fun r => (c_player_id r, c_season r)) all_rows)
  end.

Definition play_key (p : FtnPlay) : option (string * Z) :=
  match receiver_player_id p with
  | Some s => Some (s, play_season p)
  | None => None
  end.

Definition plays_of (k : string * Z) (plays : list FtnPlay) : list FtnPlay :=
  filter (fun p => match play_key p with
                   | Some k' => position_season_eqb k' k
                   | None => false
                   end) plays.

(** The group keys of a [groupby]: the distinct keys that are present, in
    ascending order. *)
Definition group_keys (plays : list FtnPlay) : list (string * Z) :=
  sort_stable key_leb
    (drop_duplicates position_season_eqb (fun k => k) []
       (flat_map (fun p => match play_key p with
                           | Some k => [k]
                           | None => []
                           end) plays)).

(** The aggregation of [get_ftn_stats]:
    [groupby(['receiver_player_id', 'season']).agg(sum)]. *)
Definition get_ftn_stats (ftn_joined : list FtnPlay) : list FtnRow :=
  map (fun k =>
         let g := plays_of k ftn_joined in
         mkFtn (fst k) (snd k)
           (sum (map is_catchable_ball g)) (sum (map is_contested_ball g))
           (sum (map is_drop g)) (sum (map is_interception_worthy g)))
      (group_keys ftn_joined).

(** *** The joins *)

(** [left.merge(right, on=..., how='left')]: the left rows in their order,
    each once per matching right row, or once with nothing attached when
    no right row matches. *)
Definition merge_left {L R : Type} (on : L -> R -> bool)
    (left : list L) (right : list R) : list (L * option R) :=
  flat_map (fun l =>
              match filter (on l) right with
              | [] => [(l, None)]
              | ms => map (fun m => (l, Some m)) ms
              end) left.

(** At most one row of [l] satisfies [p]. *)
Definition at_most_one {R : Type} (p : R -> bool) (l : list R) : Prop :=
  (List.length (filter p l) <= 1)%nat.

(** What the loaders hand to the constructor; for the charting table and
    the contracts, what their loaders hold before their last line. *)
Record Sources : Type := mkSources {
  df_stats : list StatRow;
  df_team : list TeamRow;
  combined_pfr : option (list PfrOut);
  ftn_joined : list FtnPlay;
  df_draft : list DraftRow;
  roster_info : list RosterRow;
  contract_years : list ContractRow
}.

(** One row of the fused table. *)
Record Fused : Type := mkFused {
  base : StatRow;
  team_stats : option TeamRow;
  pfr : option PfrOut;
  ftn : option FtnRow;
  draft : option DraftRow;
  roster : option RosterRow;
  contract : option ContractRow;
  season_age : fval
}.

(** [season - birth_date.dt.year], one less when the birth month is after
    September; missing without a birth date. *)
Definition compute_season_age (season : Z) (ro : option RosterRow) : fval :=
  match ro with
  | Some r =>
      match birth_date r with
      | Some (year, month) =>
          let age := of_Z (season - year) in
          if (9 <? month)%Z then fsub age (Fin 1) else age
      | None => NaN
      end
  | None => NaN
  end.

Definition stat_key (s : StatRow) : string * Z :=
  (s_player_id s, s_season s).

Definition fused_key (f : Fused) : string * Z := stat_key (base f).

(** The sources in which every join key is carried by at most one row:
    one row per player and season in the base statistics, one team row
    per club and season, one draft row per player, one roster entry per
    player and season. *)
Definition single_keyed (src : Sources) : Prop :=
  NoDup (map stat_key (df_stats src))
  /\ (forall club year,
        at_most_one (fun t => (club =? t_recent_team t)
                              && (year =? t_season t)%Z) (df_team src))
  /\ (forall id,
        at_most_one (fun d => opt_eqb (d_player_id d) id) (df_draft src))
  /\ (forall id year,
        at_most_one (fun r => opt_eqb (r_player_id r) id
                              && (r_season r =? year)%Z) (roster_info src)).

(** [left.merge(right, on=['player_id', 'season'], how='left')] against a
    table without columns: the first key is looked up in [right] and the
    lookup raises. *)
Definition merge_key_error : exn := KeyError "player_id".

(** [df_stats[df_stats['position'].isin(positions)]]. *)
Definition requested (src : Sources) (positions : list string)
    : list StatRow :=
  filter (fun r => existsb (String.eqb (s_position r)) positions)
         (df_stats src).

Definition construct_intelligent_dataset (src : Sources)
    (positions : list string) : result (list Fused) :=
  let df_pfr := get_pfr_advstats_combined (combined_pfr src) in
  let df_ftn := get_ftn_stats (ftn_joined src) in
  let df_contracts := get_contract_data (contract_years src) in
  let df0 := requested src positions in
  let df1 :=
    merge_left (fun l t => (s_recent_team l =? t_recent_team t)
                           && (s_season l =? t_season t)%Z)
               df0 (df_team src) in
  let stat1 (l : StatRow * option TeamRow) := fst l in
  match df_pfr with
  | None => Raise merge_key_error
  | Some charting =>
      let df2 :=
        merge_left
          (fun l p => opt_eqb (p_player_id p) (s_player_id (stat1 l))
                      && (p_season p =? s_season (stat1 l))%Z)
          df1 charting in
      let stat2 (l : StatRow * option TeamRow * option PfrOut) :=
        stat1 (fst l) in
      let df3 :=
        merge_left (fun l f => (f_player_id f =? s_player_id (stat2 l))
                               && (f_season f =? s_season (stat2 l))%Z)
                   df2 df_ftn in
      let stat3 (l : StatRow * option TeamRow * option PfrOut
                     * option FtnRow) := stat2 (fst l) in
      let df4 :=
        merge_left
          (fun l d => opt_eqb (d_player_id d) (s_player_id (stat3 l)))
          df3 (df_draft src) in
      let stat4 (l : StatRow * option TeamRow * option PfrOut
                     * option FtnRow * option DraftRow) := stat3 (fst l) in
      let df5 :=
        merge_left
          (fun l r => opt_eqb (r_player_id r) (s_player_id (stat4 l))
                      && (r_season r =? s_season (stat4 l))%Z)
          df4 (roster_info src) in
      let stat5 (l : StatRow * option TeamRow * option PfrOut
                     * option FtnRow * option DraftRow * option RosterRow) :=
        stat4 (fst l) in
      match df_contracts with
      | None => Raise merge_key_error
      | Some contracts =>
          let df6 :=
            merge_left
              (fun l c => (c_player_id c =? s_player_id (stat5 l))
                          && (c_season c =? s_season (stat5 l))%Z)
              df5 contracts in
          let fused :=
            map (fun row =>
                   match row with
                   | (s, t, p, f, d, r, c) =>
                       mkFused s t p f d r c
                         (compute_season_age (s_season s) r)
                   end) df6 in
          Ok (sort_stable
                (fun a b => key_leb (fused_key a) (fused_key b)) fused)
      end
  end.

End Fusion.
Export Fusion.

(** ** Concrete tables *)

Module Scenarios.

Local Open Scope string_scope.
Local Open Scope list_scope.

(** The labels of the fused snapshot once the trajectory module has run. *)
Definition snapshot_columns : list string :=
  ["player_id"; "player_display_name"; "position"; "season"; "recent_team";
   "games"; "completions"; "attempts"; "passing_yards"; "passing_tds";
   "passing_epa"; "carries"; "rushing_yards"; "rushing_tds"; "receptions";
   "targets"; "receiving_yards"; "receiving_tds"; "receiving_air_yards";
   "target_share"; "fantasy_points"; "fantasy_points_half_ppr";
   "fantasy_points_per_game";
   "team_attempts"; "team_carries"; "team_rushing_yards";
   "team_rushing_tds"; "team_receptions"; "team_receiving_yards";
   "team_receiving_tds";
   "bad_throw_pct"; "on_tgt_pct"; "pressure_pct";
   "intended_air_yards_per_pass_attempt"; "rpo_rush_att"; "scrambles";
   "scramble_yards_per_attempt";
   "rush_ybc_att"; "rush_yac_att"; "rush_brk_tkl"; "rush_x1d";
   "rec_adot"; "rec_yac_r"; "rec_ybc_r"; "rec_brk_tkl"; "rec_x1d";
   "rec_drop_percent";
   "is_catchable_ball"; "is_contested_ball"; "is_drop";
   "is_interception_worthy";
   "draft_round"; "draft_pick_num"; "years_exp"; "apy";
   "contract_years_remaining"; "is_contract_year"; "season_age";
   "raw_per_touch_yards"; "prev_efficiency"; "efficiency_delta";
   "norm_trajectory"].

(** Player P, a running back: 100 carries for 400 yards in season 1,
    80 carries for 240 yards in season 2. *)
Definition two_seasons : Table :=
  mkDF ["player_id"; "season"; "position"; "rushing_yards"; "carries";
        "receiving_yards"; "targets"]
    [ row_of "P" "RB" 2 [("carries", Fin 80); ("rushing_yards", Fin 240)];
      row_of "P" "RB" 1 [("carries", Fin 100); ("rushing_yards", Fin 400)] ].


(** A running back credited with 7 rushing yards on no carry (a lateral),
    and a quarterback, who has no receiving cells at all. *)
Definition lateral_back : Row :=
  row_of "R" "RB" 2024
    [("games", Fin 16); ("carries", Fin 0); ("rushing_yards", Fin 7);
     ("targets", Fin 10); ("receiving_yards", Fin 60);
     ("team_attempts", Fin 500); ("fantasy_points_per_game", Fin 3)].
Definition passer : Row :=
  row_of "Q" "QB" 2024
    [("games", Fin 17); ("attempts", Fin 550); ("carries", Fin 40);
     ("rushing_yards", Fin 200); ("team_attempts", Fin 560);
     ("fantasy_points_per_game", Fin 20)].

Definition season_2024 : Table :=
  mkDF snapshot_columns [lateral_back; passer].

(** A table that lacks [games] and every team column. *)
Definition bare_table : Table :=
  mkDF ["player_id"; "season"; "position"] [passer].

(** The snapshot without [team_attempts] and [team_carries]. *)
Definition without_two_team_columns : Table :=
  mkDF (filter (fun c => negb ((c =? "team_attempts") || (c =? "team_carries")))
          snapshot_columns)
       [lateral_back; passer].

(** A player traded in mid-season: a combined row and a club row. *)
Definition traded_total : PfrRow :=
  mkPfr "SmitJo00" 2023 (Some "2TM") (fun _ => Fin 1).
Definition traded_club : PfrRow :=
  mkPfr "SmitJo00" 2023 (Some "NYG") (fun _ => Fin 2).
Definition other_player : PfrRow :=
  mkPfr "DoeJa00" 2023 (Some "DAL") (fun _ => Fin 3).
Definition charting : list PfrRow :=
  [traded_total; traded_club; other_player].

(** Candidates: two 24-year-old receivers with 30 and 20 targets, and a
    young quarterback with the best score. *)
Definition wr_30 : Row :=
  row_of "W30" "WR" 2025
    [("games", Fin 12); ("targets", Fin 30); ("season_age", Fin 24);
     ("breakout_score", Fin 1)].
Definition wr_20 : Row :=
  row_of "W20" "WR" 2025
    [("games", Fin 12); ("targets", Fin 20); ("season_age", Fin 24);
     ("breakout_score", Fin 2)].
Definition young_qb : Row :=
  row_of "QB1" "QB" 2025
    [("games", Fin 12); ("targets", Fin 50); ("carries", Fin 90);
     ("season_age", Fin 23); ("breakout_score", Fin 9)].
Definition candidates : Table :=
  mkDF ["player_id"; "position"; "games"; "targets"; "carries";
        "season_age"; "breakout_score"]
    [wr_20; young_qb; wr_30].


(** One player-season in the base statistics, with one row for it in
    every other source. *)
Definition one_stat : StatRow := mkStat "P" 2024 "WR" "NYG" (fun _ => NaN).
Definition one_roster : RosterRow :=
  mkRoster (Some "P") 2024 (Some (2000, 11)%Z) (Fin 2).
Definition clean_sources : Sources :=
  mkSources [one_stat]
    [mkTeam "NYG" 2024 (fun _ => Fin 500)]
    (Some [mkPfrOut (Some "P") 2024 (fun _ => Fin 1)])
    [mkPlay (Some "P") 2024 (Fin 1) (Fin 0) (Fin 0) (Fin 0)]
    [mkDraft (Some "P") (Fin 1) (Fin 5)]
    [one_roster]
    [mkContract "P" 2024 (Fin 10) (Fin 0) (Fin 1)].

(** The same with two roster entries for the player-season, as for a
    player who was on two clubs' rosters. *)
Definition duplicated_roster : Sources :=
  mkSources (df_stats clean_sources) (df_team clean_sources)
    (combined_pfr clean_sources) (ftn_joined clean_sources)
    (df_draft clean_sources)
    [one_roster; one_roster]
    (contract_years clean_sources).

(** The same as [clean_sources] when no charting category had a row. *)
Definition without_charting : Sources :=
  mkSources (df_stats clean_sources) (df_team clean_sources)
    None (ftn_joined clean_sources)
    (df_draft clean_sources) (roster_info clean_sources)
    (contract_years clean_sources).

End Scenarios.

(** * Proofs *)

Import Scenarios.
Local Open Scope string_scope.
Local Open Scope list_scope.

(** * Facts about the numeric cells *)



(** * Facts about sorting *)

Section StableSort.
Variable A : Type.
Variable leb : A -> A -> bool.
Variable P : A -> Prop.
Hypothesis leb_total :
  forall a b, P a -> P b -> leb a b = true \/ leb b a = true.
Hypothesis leb_trans :
  forall a b c, P a -> P b -> P c ->
                leb a b = true -> leb b c = true -> leb a c = true.

Lemma insert_by_perm (x : A) (l : list A) :
  Permutation (x :: l) (insert_by leb x l).
Proof.
  induction l as [|y l IH]; simpl.
  - apply Permutation_refl.
  - destruct (leb x y).
    + apply Permutation_refl.
    + eapply perm_trans; [apply perm_swap|]. now apply perm_skip.
Qed.

Lemma sort_stable_perm (l : list A) : Permutation l (sort_stable leb l).
Proof.
  induction l as [|x l IH]; simpl.
  - constructor.
  - eapply perm_trans; [apply perm_skip, IH|]. apply insert_by_perm.
Qed.

Lemma insert_by_sorted (x : A) (l : list A) :
  P x -> Forall P l ->
  StronglySorted (fun a b => leb a b = true) l ->
  StronglySorted (fun a b => leb a b = true) (insert_by leb x l).
Proof.
  intros Px Pl Hs. induction Hs as [|y l Hs IH Hy]; simpl.
  - repeat constructor.
  - inversion Pl as [|? ? Py Pl']; subst.
    destruct (leb x y) eqn:E.
    + constructor; [now constructor|].
      constructor; [exact E|].
      rewrite Forall_forall in *. intros z Hz. eauto.
    + constructor; [now apply IH|].
      assert (Hyx : leb y x = true)
        by (destruct (leb_total Px Py) as [H|H]; congruence).
      rewrite Forall_forall in *. intros z Hz.
      apply (Permutation_in _ (Permutation_sym (insert_by_perm x l))) in Hz.
      destruct Hz as [<-|Hz]; auto.
Qed.

Lemma sort_stable_sorted (l : list A) :
  Forall P l ->
  StronglySorted (fun a b => leb a b = true) (sort_stable leb l).
Proof.
  induction 1 as [|x l Px Pl IH]; simpl.
  - constructor.
  - apply insert_by_sorted; [exact Px| |exact IH].
    rewrite Forall_forall in *. intros y Hy. apply Pl.
    apply (Permutation_in _ (Permutation_sym (sort_stable_perm l))), Hy.
Qed.
End StableSort.

(** * The order on strings *)

Lemma ascii_compare_eq (a b : ascii) : Ascii.compare a b = Eq -> a = b.
Proof.
  unfold Ascii.compare. intros H. apply N.compare_eq in H.
  rewrite <- (ascii_N_embedding a), <- (ascii_N_embedding b). now f_equal.
Qed.

Lemma ascii_compare_lt_trans (a b c : ascii) :
  Ascii.compare a b = Lt -> Ascii.compare b c = Lt -> Ascii.compare a c = Lt.
Proof.
  unfold Ascii.compare. rewrite !N.compare_lt_iff. lia.
Qed.

Lemma string_compare_lt_trans (s t u : string) :
  String.compare s t = Lt -> String.compare t u = Lt -> String.compare s u = Lt.
Proof.
  revert t u. induction s as [|a s IH]; intros [|b t] [|c u]; simpl;
    try congruence.
  destruct (Ascii.compare a b) eqn:Eab; try discriminate.
  - apply ascii_compare_eq in Eab. subst b.
    destruct (Ascii.compare a c) eqn:Eac; try congruence. apply IH.
  - intros _. destruct (Ascii.compare b c) eqn:Ebc; try discriminate.
    + apply ascii_compare_eq in Ebc. subst c. now rewrite Eab.
    + intros _. now rewrite (ascii_compare_lt_trans _ _ _ Eab Ebc).
Qed.

Lemma string_compare_refl (s : string) : String.compare s s = Eq.
Proof.
  induction s as [|a s IH]; simpl; [reflexivity|].
  unfold Ascii.compare. now rewrite N.compare_refl.
Qed.

Lemma string_compare_gt_lt (s t : string) :
  String.compare s t = Gt -> String.compare t s = Lt.
Proof. intros H. rewrite String.compare_antisym, H. reflexivity. Qed.

Lemma string_compare_lt_gt (s t : string) :
  String.compare s t = Lt -> String.compare t s = Gt.
Proof. intros H. rewrite String.compare_antisym, H. reflexivity. Qed.

Lemma key_leb_total (a b : string * Z) :
  key_leb a b = true \/ key_leb b a = true.
Proof.
  unfold key_leb.
  destruct (String.compare (fst a) (fst b)) eqn:E.
  - apply String.compare_eq_iff in E. rewrite E, string_compare_refl.
    rewrite !Z.leb_le. lia.
  - now left.
  - right. now rewrite (string_compare_gt_lt _ _ E).
Qed.

Lemma key_leb_trans (a b c : string * Z) :
  key_leb a b = true -> key_leb b c = true ->
  key_leb a c = true.
Proof.
  unfold key_leb.
  destruct (String.compare (fst a) (fst b)) eqn:Eab; try discriminate;
    destruct (String.compare (fst b) (fst c)) eqn:Ebc; try discriminate.
  - apply String.compare_eq_iff in Eab, Ebc. rewrite Eab, Ebc.
    rewrite string_compare_refl, !Z.leb_le. lia.
  - apply String.compare_eq_iff in Eab. rewrite Eab, Ebc. auto.
  - apply String.compare_eq_iff in Ebc. rewrite <- Ebc, Eab. auto.
  - now rewrite (string_compare_lt_trans _ _ _ Eab Ebc).
Qed.

Lemma Forall_True (A : Type) (l : list A) : Forall (fun _ => True) l.
Proof. induction l; constructor; auto. Qed.

Lemma StronglySorted_map (A B : Type) (R : B -> B -> Prop) (f : A -> B)
    (l : list A) :
  StronglySorted (fun a b => R (f a) (f b)) l -> StronglySorted R (map f l).
Proof.
  induction 1 as [|x l Hs IH Hx]; simpl; constructor; auto.
  rewrite Forall_forall in *. intros y Hy.
  apply in_map_iff in Hy. destruct Hy as (z & <- & Hz). auto.
Qed.

Lemma StronglySorted_app_order (A : Type) (R : A -> A -> Prop)
    (l1 l2 : list A) :
  StronglySorted R (l1 ++ l2) ->
  forall a b, In a l1 -> In b l2 -> R a b.
Proof.
  induction l1 as [|x l1 IH]; simpl; intros Hs a b Ha Hb; [contradiction|].
  inversion Hs as [|? ? Hs' Hx]; subst.
  destruct Ha as [<-|Ha].
  - rewrite Forall_forall in Hx. apply Hx, in_or_app. now right.
  - now apply IH.
Qed.

(** * Z-scores of groups without spread *)










(** With fewer than two present cells the standard deviation is missing,
    the test [x.std() != 0] holds, and the z-score of every cell is
    missing. *)
Lemma zscore_fewer_than_two_cells (x : list fval) (c : fval) :
  (count x <= 1)%nat ->
  std x = NaN /\ std_or_one x = NaN
  /\ zscore x c = NaN /\ zscore_decline x c = NaN.
Proof.
  intros H.
  assert (Hstd : std x = NaN).
  { unfold std, var. apply Nat.leb_le in H. now rewrite H. }
  assert (Hdiv : std_or_one x = NaN).
  { unfold std_or_one. now rewrite Hstd. }
  unfold zscore, zscore_decline. rewrite Hdiv.
  repeat split; try assumption.
  - now destruct (c - mean x)%F.
  - now destruct (mean x - c)%F.
Qed.


Lemma position_season_eqb_refl (k : string * Z) :
  position_season_eqb k k = true.
Proof.
  unfold position_season_eqb. now rewrite String.eqb_refl, Z.eqb_refl.
Qed.


(** * Zero denominators *)

Lemma is_zero_inv (x : fval) :
  is_zero x = true -> exists q, x = Fin q /\ (q ?= 0)%Q = Eq.
Proof.
  destruct x as [| | |q]; try discriminate.
  unfold is_zero, feq. simpl. destruct (q ?= 0)%Q eqn:E; try discriminate.
  eauto.
Qed.

Lemma guard_closed (x : fval) :
  is_zero x = true ->
  fgt x (Fin 0) = false
  /\ fgt (fillna (Fin 0) x) (Fin 0) = false
  /\ fgt (fillna (Fin 1) x) (Fin 0) = false
  /\ fgt (astype_int (fillna (Fin 0) x)) (Fin 0) = false.
Proof.
  intros H. destruct (is_zero_inv _ H) as (q & -> & E).
  unfold fgt. simpl. rewrite E. repeat split; try reflexivity.
  assert (Hq : Qnum q = 0%Z).
  { apply Qeq_alt in E. unfold Qeq in E. simpl in E. lia. }
  rewrite Hq. reflexivity.
Qed.

Ltac close_guard H :=
  destruct (guard_closed _ H) as (?G1 & ?G2 & ?G3 & ?G4);
  unfold np_where, fill0 in *;
  repeat match goal with
         | E : fgt _ _ = false |- _ => rewrite E
         end;
  try reflexivity.

Lemma guarded_rates_zero (has_contested : bool) :
  Forall (fun entry =>
            forall r : Row,
              is_zero (snd entry r) = true -> snd (fst entry) r = Fin 0)
         (guarded_rates has_contested).
Proof.
  unfold guarded_rates.
  repeat (apply Forall_cons; [simpl; intros r H|]); try apply Forall_nil.
  all: unfold designed_rush_share, scramble_rush_share, total_touch_share,
    contact_balance, rb_elusiveness_index, rb_drive_dependency,
    workhorse_score, yptmpa_first, separation_index, yac_creator,
    wr_elusiveness_index, receiver_drive_dependency, receiver_creation_adj,
    true_catch_rate, air_yards_conversion, air_yards_share, rec_yards_share,
    rec_td_share, yptmpa.
  all: try (close_guard H; fail).
  - unfold target_value, np_where.
    destruct (position r =? "RB"); close_guard H.
  - unfold contested_catch_rate. destruct has_contested; [|reflexivity].
    close_guard H.
Qed.

(** Dividing by 1 does not change whether a cell is zero. *)
Lemma fdiv_one_is_zero (x : fval) : is_zero (x / Fin 1)%F = is_zero x.
Proof.
  destruct x as [| | |q]; try reflexivity.
  change (Fin q / Fin 1)%F with (Fin (Qred (q / 1))).
  unfold is_zero, feq, fcompare.
  assert (E : (Qred (q / 1) ?= 0)%Q = (q ?= 0)%Q).
  { apply Qcompare_comp; [|reflexivity].
    rewrite Qred_correct. unfold Qdiv. change (/ 1)%Q with 1%Q.
    apply Qmult_1_r. }
  now rewrite E.
Qed.

Lemma replace_zero (x : fval) :
  is_zero x = true -> replace (Fin 0) (Fin 1) x = Fin 1.
Proof. unfold replace, is_zero. now intros ->. Qed.

(** After [replace(0, 1)] a count is never zero. *)
Lemma replace_never_zero (x : fval) :
  is_zero (replace (Fin 0) (Fin 1) x) = false.
Proof.
  unfold replace, is_zero. destruct (feq x (Fin 0)) eqn:E; [reflexivity|].
  exact E.
Qed.

Lemma replace_null (x : fval) :
  isna x = true -> replace (Fin 0) (Fin 1) x = NaN.
Proof. destruct x; try discriminate. reflexivity. Qed.

Lemma fdiv_null_l (x y : fval) : isna x = true -> (x / y)%F = NaN.
Proof. destruct x; try discriminate. reflexivity. Qed.

Lemma fdiv_null_r (x y : fval) : isna y = true -> (x / y)%F = NaN.
Proof. destruct y; try discriminate. now destruct x. Qed.

(** A guarded quotient whose numerator is finite is never missing, whatever
    the denominator. *)
Lemma guarded_quotient_notna (n d : fval) :
  is_finite n = true ->
  notna (np_where (fgt d (Fin 0)) (n / d)%F (Fin 0)) = true.
Proof.
  destruct n as [| | |a]; try discriminate. intros _.
  destruct d as [| | |b]; try reflexivity.
  unfold np_where, fgt. simpl.
  destruct (b ?= 0)%Q eqn:E; try reflexivity.
  destruct (Qeq_bool b 0) eqn:Eb; [|reflexivity].
  apply Qeq_bool_eq, Qeq_alt in Eb. congruence.
Qed.

(** The quotient of [raw_per_touch_yards]: on a zero count it is the yards
    over 1, zero exactly when the yards are; it is missing when the yards or
    the count are. *)
Lemma per_touch_quotient (yards touches : fval) :
  (is_zero touches = true ->
   (yards / replace (Fin 0) (Fin 1) touches)%F = (yards / Fin 1)%F
   /\ is_zero (yards / replace (Fin 0) (Fin 1) touches)%F = is_zero yards)
  /\ (isna yards = true \/ isna touches = true ->
      (yards / replace (Fin 0) (Fin 1) touches)%F = NaN).
Proof.
  split.
  - intros H. rewrite (replace_zero _ H).
    split; [reflexivity|apply fdiv_one_is_zero].
  - intros [H|H].
    + now apply fdiv_null_l.
    + apply fdiv_null_r. now rewrite (replace_null _ H).
Qed.

(** C2 (as amended). For every row: each guarded share or rate metric is
    exactly 0 when its denominator is 0, in particular [yptmpa] and
    [air_yards_share] when [team_attempts] is 0, and these two are never
    missing when their yardage is finite or missing.  [raw_per_touch_yards]
    replaces a zero count by 1: its divisor is never 0; on a running back
    without a carry it is the rushing yards over 1, on any other row without
    a target the receiving yards over 1, hence 0 exactly when those yards
    are 0; and it is missing whenever the yards or the count of the row's
    position are missing. *)
Theorem zero_denominator_policy (has_contested : bool) (r : Row) :
  Forall (fun entry =>
            forall r' : Row,
              is_zero (snd entry r') = true -> snd (fst entry) r' = Fin 0)
         (guarded_rates has_contested)
  /\ (is_zero (col "team_attempts" r) = true ->
      yptmpa r = Fin 0 /\ air_yards_share r = Fin 0)
  /\ (is_finite (fill0 "receiving_yards" r) = true ->
      notna (yptmpa r) = true)
  /\ (is_finite (fill0 "receiving_air_yards" r) = true ->
      notna (air_yards_share r) = true)
  /\ is_zero (replace (Fin 0) (Fin 1) (col "carries" r)) = false
  /\ is_zero (replace (Fin 0) (Fin 1) (col "targets" r)) = false
  /\ (position r = "RB" ->
      (is_zero (col "carries" r) = true ->
       raw_per_touch_yards r = (col "rushing_yards" r / Fin 1)%F
       /\ is_zero (raw_per_touch_yards r) = is_zero (col "rushing_yards" r))
      /\ (isna (col "rushing_yards" r) = true
          \/ isna (col "carries" r) = true ->
          raw_per_touch_yards r = NaN))
  /\ (position r <> "RB" ->
      (is_zero (col "targets" r) = true ->
       raw_per_touch_yards r = (col "receiving_yards" r / Fin 1)%F
       /\ is_zero (raw_per_touch_yards r)
          = is_zero (col "receiving_yards" r))
      /\ (isna (col "receiving_yards" r) = true
          \/ isna (col "targets" r) = true ->
          raw_per_touch_yards r = NaN)).
Proof.
  split; [apply guarded_rates_zero|].
  split.
  { intros H. unfold yptmpa, air_yards_share. split; close_guard H. }
  split; [apply guarded_quotient_notna|].
  split; [apply guarded_quotient_notna|].
  split; [apply replace_never_zero|].
  split; [apply replace_never_zero|].
  split.
  - intros Hp. unfold raw_per_touch_yards, per_touch_yards, np_where.
    rewrite Hp. simpl (_ =? _). apply per_touch_quotient.
  - intros Hp. unfold raw_per_touch_yards, per_touch_yards, np_where.
    apply String.eqb_neq in Hp. rewrite Hp. apply per_touch_quotient.
Qed.

(** * Schema validation *)

Lemma has_column_In (cols : list string) (c : string) :
  has_column cols c = true <-> In c cols.
Proof.
  unfold has_column. rewrite existsb_exists. split.
  - intros (x & Hx & E). apply String.eqb_eq in E. now subst.
  - intros H. exists c. split; [exact H|apply String.eqb_refl].
Qed.

Lemma has_column_false (cols : list string) (c : string) :
  has_column cols c = false <-> ~ In c cols.
Proof.
  rewrite <- has_column_In. destruct (has_column cols c); split;
    congruence || (intros H; exfalso; now apply H) || auto.
Qed.

Lemma missing_cols_spec (cols : list string) (c : string) :
  In c (missing_cols cols) <-> In c required_cols /\ ~ In c cols.
Proof.
  unfold missing_cols. rewrite filter_In, negb_true_iff, has_column_false.
  reflexivity.
Qed.

Lemma set_column_keeps (cols : list string) (x c : string) :
  In c cols -> In c (set_column cols x).
Proof.
  unfold set_column. destruct (has_column cols x); [auto|].
  intros H. apply in_or_app. now left.
Qed.

Lemma first_missing_absent (cols used : list string) (c : string) :
  first_missing cols used = Some c -> ~ In c cols.
Proof.
  unfold first_missing. intros H. apply find_some in H.
  destruct H as (_ & H). apply negb_true_iff in H.
  now apply has_column_false.
Qed.

Lemma execute_failed (prog : list assignment) (cols cols' : list string)
    (n n' : nat) (c : string) :
  execute prog cols n = (cols', n', Some c) ->
  ~ In c cols' /\ forall x, In x cols -> In x cols'.
Proof.
  revert cols n. induction prog as [|a prog IH]; intros cols n; simpl.
  - discriminate.
  - destruct (first_missing cols (reads a)) as [m|] eqn:E.
    + intros H. injection H as <- <- <-.
      split; [now apply first_missing_absent in E|auto].
    + intros H. destruct (IH _ _ H) as (Hc & Hin).
      split; [exact Hc|]. intros x Hx. apply Hin. now apply set_column_keeps.
Qed.

Lemma execute_completed (prog : list assignment) (cols cols' : list string)
    (n n' : nat) :
  execute prog cols n = (cols', n', None) ->
  n' = (n + List.length prog)%nat.
Proof.
  revert cols n. induction prog as [|a prog IH]; intros cols n; simpl.
  - intros H. injection H as <- <-. lia.
  - destruct (first_missing cols (reads a)); [discriminate|].
    intros H. apply IH in H. lia.
Qed.

Lemma require_games (df : Table) :
  In "games" (columns df) -> require ["games"] df = Ok tt.
Proof.
  intros H. unfold require, first_missing. simpl.
  now rewrite (proj2 (has_column_In _ _) H).
Qed.

Lemma run_schema_error (df : Table) :
  In "games" (columns df) -> missing_cols (columns df) <> [] ->
  run df = mkOutcome (Some (mkDF (columns df) (filter enough_games (rows df))))
             (Raise (schema_error (missing_cols (columns df)))).
Proof.
  intros Hg Hm. unfold run. rewrite (require_games _ Hg).
  destruct (missing_cols (columns df)); [congruence|reflexivity].
Qed.

Lemma run_body_result (cols : list string) (kept : list Row) :
  (exists c, returned (run_body cols kept) = Raise (KeyError c)
             /\ ((forall x, In x required_cols -> In x cols) ->
                 ~ In c required_cols))
  \/ (exists cols',
        returned (run_body cols kept)
        = Ok (mkDF cols'
                (map (assigned
                        (program kept (has_column cols "is_contested_ball"))
                        (List.length
                           (program kept
                              (has_column cols "is_contested_ball")))
                        kept) kept))).
Proof.
  unfold run_body.
  destruct (execute _ cols 0) as ((cols' & n) & [c|]) eqn:E; simpl.
  - left. exists c. split; [reflexivity|].
    apply execute_failed in E. destruct E as (Hc & Hin).
    intros Hreq Hcr. apply Hc, Hin, Hreq, Hcr.
  - right. exists cols'. apply execute_completed in E. now subst n.
Qed.

(** The caller's table, and every other table of the store, is the same
    after the call. *)
Lemma call_preserves (arg : nat) (st st' : Store) (res : result nat) :
  call arg st = Some (st', res) ->
  forall i t, nth_error st i = Some t -> nth_error st' i = Some t.
Proof.
  unfold call. destruct (nth_error st arg) as [df|]; [|discriminate].
  destruct (local (run df)) as [copy|]; intros H; injection H as <- _;
    intros i t Hi; [|exact Hi].
  rewrite nth_error_app1; [exact Hi|].
  apply nth_error_Some. congruence.
Qed.

(** C3 (as amended). A call never changes a table the caller holds.  On a
    table that has a [games] column: when some of the seven team columns
    are absent the call raises the schema error, which lists exactly the
    absent ones, and the copy it was working on has the columns of the
    input and no other; when all seven are present the call does not raise
    that error, and a missing-column error it raises names none of the
    seven. *)
Theorem calculate_composite_metrics_validation (df : Table) :
  (forall arg st st' res,
     call arg st = Some (st', res) ->
     forall i t, nth_error st i = Some t -> nth_error st' i = Some t)
  /\ (In "games" (columns df) ->
      let missing := missing_cols (columns df) in
      (forall c, In c missing <-> In c required_cols /\ ~ In c (columns df))
      /\ (missing <> [] ->
          calculate_composite_metrics df
          = Raise (ValueError "Missing required team columns: " missing)
          /\ local (run df)
             = Some (mkDF (columns df) (filter enough_games (rows df)))
          /\ forall arg st,
               nth_error st arg = Some df ->
               exists st',
                 call arg st
                 = Some (st',
                         Raise (ValueError "Missing required team columns: "
                                  missing))
                 /\ nth_error st' arg = Some df)
      /\ (missing = [] ->
          (forall cols,
             calculate_composite_metrics df <> Raise (schema_error cols))
          /\ (forall c,
                calculate_composite_metrics df = Raise (KeyError c) ->
                ~ In c required_cols))).
Proof.
  split; [intros arg st st' res; apply call_preserves|].
  intros Hg missing. split; [apply missing_cols_spec|]. split.
  - intros Hm. pose proof (run_schema_error df Hg Hm) as Hrun.
    unfold calculate_composite_metrics. rewrite Hrun. simpl.
    split; [reflexivity|]. split; [reflexivity|].
    intros arg st Harg. unfold call. rewrite Harg, Hrun. simpl.
    eexists. split; [reflexivity|].
    rewrite nth_error_app1; [exact Harg|].
    apply nth_error_Some. congruence.
  - intros Hm. unfold calculate_composite_metrics, run.
    rewrite (require_games _ Hg). fold missing. rewrite Hm.
    assert (Hreq : forall x, In x required_cols -> In x (columns df)).
    { intros x Hx. destruct (in_dec string_dec x (columns df)) as [H|H];
        [exact H|].
      assert (Hin : In x missing) by (apply missing_cols_spec; now split).
      rewrite Hm in Hin. contradiction. }
    destruct (run_body_result (columns df) (filter enough_games (rows df)))
      as [(c & -> & Hc)|(cols' & ->)].
    + split; [discriminate|]. intros c' H. injection H as <-. now apply Hc.
    + split; discriminate.
Qed.

(** The rows of the returned table: every assignment of the body applied
    to the rows that passed the filter. *)
Lemma Forall2_map_r (A B : Type) (P : A -> B -> Prop) (f : A -> B)
    (l : list A) :
  (forall x, In x l -> P x (f x)) -> Forall2 P l (map f l).
Proof.
  induction l as [|x l IH]; simpl; intros H; constructor; auto.
Qed.

Lemma calculate_composite_metrics_rows (df out : Table) :
  calculate_composite_metrics df = Ok out ->
  let kept := filter enough_games (rows df) in
  let prog := program kept (has_column (columns df) "is_contested_ball") in
  rows out = map (assigned prog (List.length prog) kept) kept.
Proof.
  unfold calculate_composite_metrics, run.
  destruct (require ["games"] df); [|discriminate].
  destruct (missing_cols (columns df)); [|discriminate].
  destruct (run_body_result (columns df) (filter enough_games (rows df)))
    as [(c & -> & _)|(cols' & ->)]; [discriminate|].
  intros H. injection H as <-. reflexivity.
Qed.

(** * Composite scores *)

(** C4 (as amended). In the returned table each score is the weighted sum
    of its terms with the weights written in the source: [breakout_score]
    is that sum times [breakout_multiplier] and times [arrival_multiplier],
    [sell_high_score] is it times [market_value_multiplier], and
    [buy_low_score] is the sum itself.  The breakout weights and the buy-low
    weights sum to 1; the sell-high weights sum to -0.1, their absolute
    values to 1. *)
Theorem composite_score_weights :
  total_weight breakout_weights == 1
  /\ total_weight buy_low_weights == 1
  /\ total_weight sell_high_weights == -0.1
  /\ total_weight (map Qabs sell_high_weights) == 1
  /\ forall df out : Table,
       calculate_composite_metrics df = Ok out ->
       Forall
         (fun r' =>
            col "breakout_score" r'
            = (weighted_sum
                 (combine
                    [col "draft_capital_score" r'; col "norm_youth_bonus" r';
                     col "norm_target_value" r'; col "norm_efficiency" r';
                     (Fin 1 - fillna (Fin 0) (col "norm_target_share" r'))%F]
                    breakout_weights)
               * col "breakout_multiplier" r' * col "arrival_multiplier" r')%F
            /\ col "sell_high_score" r'
               = (weighted_sum
                    (combine
                       [col "norm_age_risk" r'; col "norm_target_share" r';
                        col "norm_efficiency" r'; col "norm_trajectory" r']
                       sell_high_weights)
                  * col "market_value_multiplier" r')%F
            /\ col "buy_low_score" r'
               = weighted_sum
                   (combine
                      [clip (Some (Fin 0)) (Some (Fin 5))
                         (col "air_yards_differential" r' / Fin 100)%F;
                       col "norm_youth_bonus" r';
                       (fillna (Fin 0) (col "target_share" r') * Fin 10)%F;
                       col "draft_capital_score" r';
                       clip (Some (Fin 0)) (Some (Fin 2))
                         (Fin 1 / (col "fantasy_points_per_game" r'
                                   + lit 0.1))%F]
                      buy_low_weights))
         (rows out).
Proof.
  split; [reflexivity|]. split; [reflexivity|]. split; [reflexivity|].
  split; [reflexivity|].
  intros df out Hout. rewrite (calculate_composite_metrics_rows _ Hout).
  apply Forall_forall. intros r' Hr'. apply in_map_iff in Hr'.
  destruct Hr' as (r & <- & _).
  set (kept := filter enough_games (rows df)).
  set (prog := program kept _).
  split; [|split]; reflexivity.
Qed.

(** * Fusion engine *)

(** A left join against a table with at most one match per left row keeps
    the left rows as they are. *)
Lemma merge_left_single (L R : Type) (on : L -> R -> bool)
    (left : list L) (right : list R) :
  (forall l, In l left -> at_most_one (on l) right) ->
  map fst (merge_left on left right) = left.
Proof.
  unfold merge_left, at_most_one.
  induction left as [|l left IH]; intros H; [reflexivity|].
  cbn [flat_map]. rewrite map_app, IH by (intros; apply H; now right).
  specialize (H l (or_introl eq_refl)).
  destruct (filter (on l) right) as [|m [|m' ms]]; simpl in *;
    try reflexivity; lia.
Qed.

Lemma pairwise_at_most_one (R : Type) (p : R -> bool) (l : list R) :
  ForallOrdPairs (fun a b => ~ (p a = true /\ p b = true)) l ->
  at_most_one p l.
Proof.
  unfold at_most_one. induction 1 as [|a l Ha _ IH]; simpl; [lia|].
  destruct (p a) eqn:E; [|exact IH]. simpl.
  assert (Hnil : filter p l = []).
  { clear IH. induction l as [|b l IHl]; simpl; [reflexivity|].
    inversion Ha as [|? ? Hb Hl]; subst.
    destruct (p b) eqn:Eb; [exfalso; apply Hb; now split|now apply IHl]. }
  rewrite Hnil. simpl. lia.
Qed.

Lemma ForallOrdPairs_impl (A : Type) (R S : A -> A -> Prop) (l : list A) :
  (forall a b, R a b -> S a b) -> ForallOrdPairs R l -> ForallOrdPairs S l.
Proof.
  intros H. induction 1 as [|a l Ha _ IH]; constructor; auto.
  rewrite Forall_forall in *. auto.
Qed.

(** After [drop_duplicates] no row has the key of an earlier one. *)
Lemma drop_duplicates_pairwise (A K : Type) (eqb : K -> K -> bool)
    (key : A -> K) (l : list A) (seen : list K) :
  Forall (fun b => forall s, In s seen -> eqb (key b) s = false)
         (drop_duplicates eqb key seen l)
  /\ ForallOrdPairs (fun a b => eqb (key b) (key a) = false)
       (drop_duplicates eqb key seen l).
Proof.
  revert seen. induction l as [|r l IH]; intros seen; simpl.
  - split; constructor.
  - destruct (existsb (eqb (key r)) seen) eqn:E; [apply IH|].
    destruct (IH (key r :: seen)) as (Hf & Hp).
    split.
    + constructor.
      * intros s Hs. destruct (eqb (key r) s) eqn:Es; [|reflexivity].
        assert (Hex : existsb (eqb (key r)) seen = true)
          by (apply existsb_exists; eauto).
        congruence.
      * rewrite Forall_forall in *. intros b Hb s Hs.
        apply (Hf b Hb). now right.
    + constructor; [|exact Hp].
      rewrite Forall_forall in *. intros b Hb. apply (Hf b Hb). now left.
Qed.

Lemma filter_rev (A : Type) (p : A -> bool) (l : list A) :
  filter p (rev l) = rev (filter p l).
Proof.
  induction l as [|x l IH]; simpl; [reflexivity|].
  rewrite filter_app, IH. simpl. destruct (p x); simpl;
    [reflexivity|now rewrite app_nil_r].
Qed.

Lemma at_most_one_rev (R : Type) (p : R -> bool) (l : list R) :
  at_most_one p l -> at_most_one p (rev l).
Proof. unfold at_most_one. now rewrite filter_rev, length_rev. Qed.

Lemma opt_eqb_eq (a : option string) (b : string) :
  opt_eqb a b = true -> a = Some b.
Proof.
  destruct a as [s|]; simpl; [|discriminate].
  intros H. apply String.eqb_eq in H. now subst.
Qed.

Lemma pfr_single (combined : option (list PfrOut)) (charting : list PfrOut)
    (id : string) (year : Z) :
  get_pfr_advstats_combined combined = Some charting ->
  at_most_one (fun p => opt_eqb (p_player_id p) id && (p_season p =? year)%Z)
    charting.
Proof.
  unfold get_pfr_advstats_combined.
  destruct combined as [merged|]; [|discriminate].
  intros H. injection H as <-. rename merged into combined.
  apply pairwise_at_most_one.
  eapply ForallOrdPairs_impl;
    [|apply (drop_duplicates_pairwise opt_key_eqb
               (fun r => (p_player_id r, p_season r)) combined [])].
  intros a b H (Ha & Hb).
  apply andb_true_iff in Ha, Hb. destruct Ha as (Ha & Ya), Hb as (Hb & Yb).
  apply opt_eqb_eq in Ha, Hb. apply Z.eqb_eq in Ya, Yb.
  unfold opt_key_eqb in H. simpl in H.
  rewrite Ha, Hb, Ya, Yb, String.eqb_refl, Z.eqb_refl in H. discriminate.
Qed.

Lemma contract_single (all_rows contracts : list ContractRow) (id : string)
    (year : Z) :
  get_contract_data all_rows = Some contracts ->
  at_most_one (fun c => (c_player_id c =? id) && (c_season c =? year)%Z)
    contracts.
Proof.
  intros H.
  assert (E : contracts
              = drop_duplicates_last position_season_eqb
                  (fun r => (c_player_id r, c_season r)) all_rows).
  { unfold get_contract_data in H.
    destruct all_rows; [discriminate|]. now injection H as <-. }
  rewrite E. clear H E. unfold drop_duplicates_last.
  apply at_most_one_rev, pairwise_at_most_one.
  eapply ForallOrdPairs_impl;
    [|apply (drop_duplicates_pairwise position_season_eqb
               (fun r => (c_player_id r, c_season r)) (rev all_rows) [])].
  intros a b H (Ha & Hb).
  apply andb_true_iff in Ha, Hb. destruct Ha as (Ha & Ya), Hb as (Hb & Yb).
  apply String.eqb_eq in Ha, Hb. apply Z.eqb_eq in Ya, Yb.
  unfold position_season_eqb in H. simpl in H.
  rewrite Ha, Hb, Ya, Yb, String.eqb_refl, Z.eqb_refl in H. discriminate.
Qed.

Lemma NoDup_pairwise (A : Type) (l : list A) :
  ForallOrdPairs (fun a b => b <> a) l -> NoDup l.
Proof.
  induction 1 as [|a l Ha _ IH]; constructor; [|exact IH].
  rewrite Forall_forall in Ha. intros Hin. now apply (Ha a Hin).
Qed.

Lemma group_keys_NoDup (plays : list FtnPlay) : NoDup (group_keys plays).
Proof.
  unfold group_keys.
  eapply Permutation_NoDup; [apply sort_stable_perm|].
  apply NoDup_pairwise.
  eapply ForallOrdPairs_impl;
    [|apply (drop_duplicates_pairwise position_season_eqb (fun k => k))].
  simpl. intros a b H ->. rewrite position_season_eqb_refl in H.
  discriminate.
Qed.

Lemma NoDup_map_at_most_one (A K : Type) (key : A -> K) (p : A -> bool)
    (l : list A) :
  NoDup (map key l) ->
  (forall a b, p a = true -> p b = true -> key a = key b) ->
  at_most_one p l.
Proof.
  intros Hnd Hp. apply pairwise_at_most_one.
  induction l as [|a l IH]; [constructor|].
  simpl in Hnd. inversion Hnd as [|? ? Ha Hl]; subst.
  constructor; [|now apply IH].
  rewrite Forall_forall. intros b Hb (Pa & Pb).
  apply Ha. rewrite (Hp a b Pa Pb). now apply in_map.
Qed.

Lemma ftn_single (plays : list FtnPlay) (id : string) (year : Z) :
  at_most_one (fun f => (f_player_id f =? id) && (f_season f =? year)%Z)
    (get_ftn_stats plays).
Proof.
  apply NoDup_map_at_most_one
    with (key := fun f => (f_player_id f, f_season f)).
  - unfold get_ftn_stats. rewrite map_map. simpl.
    rewrite (map_ext _ (fun k => k)), map_id by (now intros (s & z)).
    apply group_keys_NoDup.
  - intros a b Ha Hb. apply andb_true_iff in Ha, Hb.
    destruct Ha as (Ha & Ya), Hb as (Hb & Yb).
    apply String.eqb_eq in Ha, Hb. apply Z.eqb_eq in Ya, Yb. congruence.
Qed.

Lemma NoDup_map_filter (A K : Type) (key : A -> K) (p : A -> bool)
    (l : list A) :
  NoDup (map key l) -> NoDup (map key (filter p l)).
Proof.
  induction l as [|a l IH]; simpl; intros H; [constructor|].
  inversion H as [|? ? Ha Hl]; subst.
  destruct (p a); simpl; [|now apply IH].
  constructor; [|now apply IH].
  intros Hin. apply Ha. apply in_map_iff in Hin.
  destruct Hin as (b & E & Hb). apply filter_In in Hb.
  rewrite <- E. apply in_map. apply Hb.
Qed.

(** A left join keeps every left row, at least once, and adds none. *)
Lemma merge_left_In (L R K : Type) (on : L -> R -> bool) (f : L -> K)
    (left : list L) (right : list R) (k : K) :
  In k (map (fun p => f (fst p)) (merge_left on left right))
  <-> In k (map f left).
Proof.
  unfold merge_left. induction left as [|l left IH]; [reflexivity|].
  cbn [flat_map map]. rewrite map_app, in_app_iff, IH. cbn [In].
  assert (H : In k (map (fun p : L * option R => f (fst p))
                      match filter (on l) right with
                      | [] => [(l, None)]
                      | m :: ms => map (fun m' => (l, Some m')) (m :: ms)
                      end) <-> f l = k).
  { destruct (filter (on l) right) as [|m ms].
    - simpl. tauto.
    - rewrite map_map. cbn [fst]. rewrite in_map_iff. split.
      + now intros (x & E & _).
      + intros E. exists m. split; [exact E|now left]. }
  rewrite H. reflexivity.
Qed.

Lemma merge_left_fst (L R K : Type) (on : L -> R -> bool) (f : L -> K)
    (left : list L) (right : list R) :
  (forall l, In l left -> at_most_one (on l) right) ->
  map (fun p => f (fst p)) (merge_left on left right) = map f left.
Proof.
  intros H. rewrite <- (map_map fst f). now rewrite merge_left_single.
Qed.

(** C5 (as amended). The constructor has no uniqueness check.  Its only
    error is the [KeyError] of a merge against a charting or contract table
    that has no column, which it raises exactly when no charting category
    had a row or no contract year was expanded, whatever keys repeat.
    Otherwise it returns the joined table, which holds the
    (player_id, season) keys of the base rows of the requested positions and
    no other.  The charting, play-count and contract tables reach the joins
    with one row per key; when the base statistics, the team table, the
    draft table and the roster also carry each join key on at most one row,
    every key is on exactly one row of the result. *)
Theorem construct_intelligent_dataset_keys (src : Sources)
    (positions : list string) :
  (combined_pfr src = None \/ contract_years src = [] ->
   construct_intelligent_dataset src positions = Raise (KeyError "player_id"))
  /\ (combined_pfr src <> None -> contract_years src <> [] ->
      exists out,
        construct_intelligent_dataset src positions = Ok out
        /\ (forall k, In k (map fused_key out)
                      <-> In k (map stat_key (requested src positions)))
        /\ (single_keyed src ->
            NoDup (map fused_key out)
            /\ Permutation (map stat_key (requested src positions))
                 (map fused_key out))).
Proof.
  unfold construct_intelligent_dataset.
  set (df0 := requested src positions).
  split.
  - intros [H|H]; rewrite H; cbn [get_pfr_advstats_combined get_contract_data].
    + reflexivity.
    + now destruct (get_pfr_advstats_combined (combined_pfr src)).
  - intros Hpfr Hcon.
    destruct (get_pfr_advstats_combined (combined_pfr src))
      as [charting|] eqn:Epfr;
      [|unfold get_pfr_advstats_combined in Epfr;
        destruct (combined_pfr src); [discriminate|congruence]].
    destruct (get_contract_data (contract_years src))
      as [contracts|] eqn:Econ;
      [|unfold get_contract_data in Econ;
        destruct (contract_years src); [congruence|discriminate]].
    cbv zeta. eexists. split; [reflexivity|].
    match goal with
    | |- context [sort_stable ?leb (map ?mk ?rows6)] =>
        set (order := leb); set (fuse := mk); set (df6 := rows6)
    end.
    assert (Hkey : map fused_key (map fuse df6)
                   = map (fun row =>
                            stat_key (fst (fst (fst (fst (fst (fst row)))))))
                         df6).
    { rewrite map_map. apply map_ext.
      now intros ((((((s & t) & p) & f) & d) & r) & c). }
    split.
    + intros k.
      assert (Hsort : In k (map fused_key (sort_stable order (map fuse df6)))
                      <-> In k (map fused_key (map fuse df6))).
      { split; apply Permutation_in, Permutation_map;
          [apply Permutation_sym|]; apply sort_stable_perm. }
      rewrite Hsort, Hkey. unfold df6.
      rewrite (merge_left_In _
                 (fun row => stat_key (fst (fst (fst (fst (fst row))))))).
      rewrite (merge_left_In _
                 (fun row => stat_key (fst (fst (fst (fst row)))))).
      rewrite (merge_left_In _ (fun row => stat_key (fst (fst (fst row))))).
      rewrite (merge_left_In _ (fun row => stat_key (fst (fst row)))).
      rewrite (merge_left_In _ (fun row => stat_key (fst row))).
      rewrite (merge_left_In _ stat_key).
      reflexivity.
    + intros (Hstats & Hteam & Hdraft & Hroster).
      assert (Hperm : Permutation (map stat_key df0)
                        (map fused_key (sort_stable order (map fuse df6)))).
      { eapply perm_trans; [|apply Permutation_map, sort_stable_perm].
        rewrite Hkey. unfold df6.
        rewrite (merge_left_fst _
                   (fun row => stat_key (fst (fst (fst (fst (fst row)))))))
          by (intros l _; apply (@contract_single _ _ _ _ Econ)).
        rewrite (merge_left_fst _
                   (fun row => stat_key (fst (fst (fst (fst row))))))
          by (intros l _; apply Hroster).
        rewrite (merge_left_fst _
                   (fun row => stat_key (fst (fst (fst row)))))
          by (intros l _; apply Hdraft).
        rewrite (merge_left_fst _ (fun row => stat_key (fst (fst row))))
          by (intros l _; apply ftn_single).
        rewrite (merge_left_fst _ (fun row => stat_key (fst row)))
          by (intros l _; apply (@pfr_single _ _ _ _ Epfr)).
        rewrite (merge_left_fst _ stat_key) by (intros l _; apply Hteam).
        apply Permutation_refl. }
      split; [|exact Hperm].
      eapply Permutation_NoDup; [exact Hperm|].
      now apply NoDup_map_filter.
Qed.

(** * Source normalizer *)

Lemma position_season_eqb_eq (a b : string * Z) :
  position_season_eqb a b = true <-> a = b.
Proof.
  unfold position_season_eqb. rewrite andb_true_iff, String.eqb_eq, Z.eqb_eq.
  destruct a, b; simpl. split; [intros (-> & ->)|intros [= -> ->]]; auto.
Qed.

Lemma filter_filter_andb (A : Type) (p q : A -> bool) (l : list A) :
  filter p (filter q l) = filter (fun x => q x && p x) l.
Proof.
  induction l as [|x l IH]; simpl; [reflexivity|].
  destruct (q x); simpl; [destruct (p x)|]; now rewrite IH.
Qed.

Lemma has_total_in_group (df : list PfrRow) (r x : PfrRow) :
  pfr_key x = pfr_key r ->
  has_total df x
  = existsb is_total_row (group_of position_season_eqb pfr_key df r)
  /\ has_total (group_of position_season_eqb pfr_key df r) x = has_total df x.
Proof.
  intros E. unfold has_total, group_of. rewrite E. split; [reflexivity|].
  f_equal. rewrite filter_filter_andb. apply filter_ext. intros y.
  now rewrite andb_diag.
Qed.

(** Rows of the group kept by the step, whether it runs on the table or on
    the group alone. *)
Lemma handle_midseason_trades_group (df : list PfrRow) (r : PfrRow) :
  let g := group_of position_season_eqb pfr_key df r in
  group_of position_season_eqb pfr_key (handle_midseason_trades df) r
  = handle_midseason_trades g
  /\ handle_midseason_trades g
     = filter (fun x => (existsb is_total_row g && is_total_row x)
                        || negb (existsb is_total_row g)) g.
Proof.
  intros g. unfold handle_midseason_trades. split.
  - transitivity
      (filter (fun x => position_season_eqb (pfr_key x) (pfr_key r)
                        && ((has_total df x && is_total_row x)
                            || negb (has_total df x))) df).
    + unfold group_of. rewrite filter_filter_andb. apply filter_ext.
      intros x. apply andb_comm.
    + unfold g, group_of. rewrite filter_filter_andb. apply filter_ext.
      intros x.
      destruct (position_season_eqb (pfr_key x) (pfr_key r)) eqn:E;
        [|reflexivity].
      apply position_season_eqb_eq in E.
      destruct (has_total_in_group df E) as (_ & H).
      unfold group_of in H. now rewrite H.
  - apply filter_ext_in. intros x Hx. unfold g, group_of in Hx.
    apply filter_In in Hx. destruct Hx as (_ & E).
    apply position_season_eqb_eq in E.
    destruct (has_total_in_group df E) as (H1 & H2).
    fold g in H1, H2. now rewrite H2, H1.
Qed.

Lemma filter_all (A : Type) (l : list A) : filter (fun _ => true) l = l.
Proof. induction l as [|x l IH]; simpl; congruence. Qed.

(** C6. Within one statistical category, the step looks at each
    (pfr_id, season) group on its own: a group that has a combined row (its
    team text contains "TM") keeps exactly its combined rows, a group
    without one keeps all its rows, in their order; and the loop applies the
    step to each category's table separately. *)
Theorem handle_midseason_trades_per_group (df : list PfrRow) (r : PfrRow) :
  let g := group_of position_season_eqb pfr_key df r in
  let g' :=
    group_of position_season_eqb pfr_key (handle_midseason_trades df) r in
  g' = handle_midseason_trades g
  /\ (existsb is_total_row g = true -> g' = filter is_total_row g)
  /\ (existsb is_total_row g = false -> g' = g)
  /\ (forall x,
        In x (handle_midseason_trades df)
        <-> In x df /\ (has_total df x = true -> is_total_row x = true))
  /\ (forall x, is_total_row x = contains "TM" (astype_str (team x)))
  /\ (forall loaded c t',
        In (c, t') (normalize_categories loaded) ->
        exists t, In (c, t) loaded /\ t' = handle_midseason_trades t).
Proof.
  intros g g'.
  destruct (handle_midseason_trades_group df r) as (Hg & Hh).
  fold g in Hg, Hh. fold g' in Hg.
  split; [exact Hg|]. split; [|split; [|split; [|split]]].
  - intros E. rewrite Hg, Hh, E. apply filter_ext. intros x.
    now rewrite orb_false_r.
  - intros E. rewrite Hg, Hh, E. apply filter_all.
  - intros x. unfold handle_midseason_trades. rewrite filter_In.
    destruct (has_total df x), (is_total_row x); simpl;
      intuition congruence.
  - reflexivity.
  - intros loaded c t' H. unfold normalize_categories in H.
    apply in_map_iff in H. destruct H as ((c0 & t) & E & Hin).
    simpl in E. injection E as <- <-.
    apply filter_In in Hin. exists t. now split.
Qed.

(** * Segmentation and ranking *)

Lemma filter_split_perm (A : Type) (p : A -> bool) (l : list A) :
  Permutation l (filter (fun x => negb (p x)) l ++ filter p l).
Proof.
  induction l as [|x l IH]; simpl; [constructor|].
  destruct (p x); simpl.
  - now apply Permutation_cons_app.
  - now constructor.
Qed.

Lemma sort_values_desc_by_perm (A : Type) (isnull : A -> bool)
    (ge : A -> A -> bool) (l out : list A) :
  sort_values_desc_by isnull ge l out -> Permutation l out.
Proof.
  intros (present & Hp & _ & ->).
  eapply perm_trans; [apply (filter_split_perm isnull)|].
  now apply Permutation_app_tail.
Qed.










Lemma firstn_In (A : Type) (n : nat) (l : list A) (x : A) :
  In x (firstn n l) -> In x l.
Proof.
  intros H. rewrite <- (firstn_skipn n l). apply in_or_app. now left.
Qed.

Lemma feq_compat (x : fval) (a b : Q) :
  feq x (Fin a) = true ->
  fge x (Fin b) = fge (Fin a) (Fin b) /\ fle x (Fin b) = fle (Fin a) (Fin b).
Proof.
  destruct x as [| | |q]; try discriminate.
  unfold feq, fge, fle. simpl.
  destruct (q ?= a)%Q eqn:E; try discriminate. intros _.
  apply Qeq_alt in E. now rewrite E.
Qed.

(** What a call that returns a table returns. *)
Lemma get_dynasty_candidates_ok (df : Table) (candidate_type : string)
    (min_games : Q) (top_n : nat) (out : Table) :
  get_dynasty_candidates df candidate_type min_games top_n (Ok out) ->
  match select_candidates df candidate_type min_games with
  | Ok (Some (df_filtered, sort_col)) =>
      exists sorted,
        sort_values_desc (col sort_col) df_filtered sorted
        /\ out = mkDF (columns df) (head top_n sorted)
  | Ok None => out = mkDF [] []
  | Raise _ => False
  end.
Proof.
  unfold get_dynasty_candidates.
  destruct (select_candidates df candidate_type min_games)
    as [[(l & c)|]|e]; try discriminate.
  - destruct (require [c] df); [|discriminate].
    intros (sorted & Hs & H). injection H as ->. eauto.
  - intros H. now injection H.
Qed.

Lemma select_breakout (df : Table) (min_games : Q) (l : list Row)
    (c : string) :
  select_candidates df "breakout" min_games = Ok (Some (l, c)) ->
  l = breakout_rows
        (filter (fun r => fge (col "games" r) (Fin min_games)) (rows df))
  /\ c = "breakout_score".
Proof.
  unfold select_candidates.
  destruct (require ["games"] df); [|discriminate].
  simpl (_ =? _).
  destruct (require _ df); [|discriminate].
  intros H. injection H as <- <-. now split.
Qed.

Lemma breakout_rows_In (l : list Row) (r : Row) :
  In r (breakout_rows l)
  <-> In r l /\ negb (position r =? "QB") = true
      /\ volume_mask 25 40 r = true
      /\ fle (col "season_age" r) (Fin 25) = true.
Proof. unfold breakout_rows. rewrite !filter_In. tauto. Qed.

(** C7. The breakout list only holds rows of the table that have the
    minimum games, are not quarterbacks, meet the volume floor of their
    position (25 targets for WR and TE, 40 carries for RB) and are at most
    25 years old.  A quarterback is never listed, nor is a receiver with 20
    targets; a 24-year-old receiver with 30 targets and the minimum games
    passes the filter, and is listed when the list is long enough for all
    rows that pass. *)
Theorem breakout_candidates_filter (df : Table) (min_games : Q)
    (top_n : nat) (out : Table) :
  get_dynasty_candidates df "breakout" min_games top_n (Ok out) ->
  let passing :=
    breakout_rows
      (filter (fun r => fge (col "games" r) (Fin min_games)) (rows df)) in
  Forall (breakout_eligible min_games) (rows out)
  /\ (forall r, In r (rows out) -> In r (rows df))
  /\ (forall r, position r = "QB" -> ~ In r (rows out))
  /\ (forall r, position r = "WR" ->
                feq (col "targets" r) (Fin 20) = true -> ~ In r (rows out))
  /\ (forall r, In r (rows df) ->
                position r = "WR" ->
                feq (col "season_age" r) (Fin 24) = true ->
                feq (col "targets" r) (Fin 30) = true ->
                fge (col "games" r) (Fin min_games) = true ->
                In r passing
                /\ ((List.length passing <= top_n)%nat -> In r (rows out))).
Proof.
  intros H passing. apply get_dynasty_candidates_ok in H.
  destruct (select_candidates df "breakout" min_games)
    as [[(l & c)|]|e] eqn:E; try contradiction.
  2: { unfold select_candidates in E.
       destruct (require ["games"] df); [|discriminate].
       simpl (_ =? _) in E. destruct (require _ df); discriminate. }
  destruct (select_breakout _ _ E) as (-> & ->). fold passing in H.
  destruct H as (sorted & Hs & ->). simpl rows.
  pose proof (sort_values_desc_by_perm Hs) as Hperm.
  assert (Hin : forall r, In r (head top_n sorted) -> In r passing).
  { intros r Hr. apply firstn_In in Hr.
    now apply (Permutation_in _ (Permutation_sym Hperm)). }
  assert (Hpass : forall r, In r passing ->
                    In r (rows df) /\ breakout_eligible min_games r).
  { intros r Hr. apply breakout_rows_In in Hr.
    destruct Hr as (Hr & Hq & Hv & Ha). apply filter_In in Hr.
    destruct Hr as (Hr & Hg). split; [exact Hr|].
    unfold breakout_eligible. split; [exact Hg|]. split.
    - apply negb_true_iff, String.eqb_neq in Hq. exact Hq.
    - split; [|exact Ha]. unfold volume_mask, is_receiver in Hv.
      apply orb_true_iff in Hv. destruct Hv as [Hv|Hv];
        apply andb_true_iff in Hv; destruct Hv as (Hp & Hv).
      + left. split; [|exact Hv]. apply orb_true_iff in Hp.
        destruct Hp as [Hp|Hp]; apply String.eqb_eq in Hp; auto.
      + right. apply String.eqb_eq in Hp. now split. }
  split.
  { rewrite Forall_forall. intros r Hr. now apply Hpass, Hin. }
  split.
  { intros r Hr. now apply Hpass, Hin. }
  split.
  { intros r Hq Hr. apply Hin, Hpass in Hr.
    destruct Hr as (_ & _ & Hne & _). contradiction. }
  split.
  { intros r Hw Ht Hr. apply Hin, breakout_rows_In in Hr.
    destruct Hr as (_ & _ & Hv & _).
    unfold volume_mask, is_receiver in Hv. rewrite Hw in Hv.
    destruct (@feq_compat _ _ 25%Q Ht) as (Hge & _).
    rewrite Hge in Hv. discriminate. }
  intros r Hr Hw Ha Ht Hg.
  assert (Hp : In r passing).
  { apply breakout_rows_In. split; [apply filter_In; now split|].
    rewrite Hw. split; [reflexivity|].
    unfold volume_mask, is_receiver. rewrite Hw.
    destruct (@feq_compat _ _ 25%Q Ht) as (-> & _).
    destruct (@feq_compat _ _ 25%Q Ha) as (_ & ->). now split. }
  split; [exact Hp|]. intros Hlen.
  unfold head. rewrite firstn_all2.
  - now apply (Permutation_in _ Hperm).
  - now rewrite <- (Permutation_length Hperm).
Qed.




(** * Trajectory module *)

Lemma shift_from_length (A K : Type) (eqb : K -> K -> bool) (key : A -> K)
    (metric : A -> fval) (l seen : list A) :
  List.length (shift_from eqb key metric seen l) = List.length l.
Proof.
  revert seen. induction l as [|r l IH]; intros seen; simpl; [reflexivity|].
  now rewrite IH.
Qed.

Lemma shift_from_app (A K : Type) (eqb : K -> K -> bool) (key : A -> K)
    (metric : A -> fval) (l1 l2 seen : list A) :
  shift_from eqb key metric seen (l1 ++ l2) =
  shift_from eqb key metric seen l1
  ++ shift_from eqb key metric (rev l1 ++ seen) l2.
Proof.
  revert seen. induction l1 as [|r l1 IH]; intros seen; simpl; [reflexivity|].
  rewrite IH. now rewrite <- app_assoc.
Qed.

(** The shift only looks at the key and the cell of each row. *)
Lemma shift_from_view (A K : Type) (eqb : K -> K -> bool) (key : A -> K)
    (metric : A -> fval) (l seen : list A) :
  shift_from eqb key metric seen l =
  shift_from eqb fst snd (map (fun p => (key p, metric p)) seen)
    (map (fun p => (key p, metric p)) l).
Proof.
  revert seen. induction l as [|r l IH]; intros seen; simpl; [reflexivity|].
  rewrite (IH (r :: seen)). simpl. f_equal.
  clear. induction seen as [|p seen IH]; simpl; [reflexivity|].
  destruct (eqb (key p) (key r)); [reflexivity|exact IH].
Qed.

(** The three assignments after [raw_per_touch_yards], row by row. *)
Lemma trajectory_rows (g : Row -> fval) (l seen : list Row) :
  let out :=
    map (fun r => set "norm_trajectory" (g r) r)
      (map with_delta
         (combine (map with_raw l)
            (shift_from String.eqb player_id (col "raw_per_touch_yards")
               seen (map with_raw l)))) in
  map (fun r => (player_id r, col "raw_per_touch_yards" r)) out
  = map (fun r => (player_id r, col "raw_per_touch_yards" r)) (map with_raw l)
  /\ map player_season out = map player_season l
  /\ map (col "prev_efficiency") out
     = shift_from String.eqb player_id (col "raw_per_touch_yards")
         seen (map with_raw l)
  /\ Forall (fun r =>
               col "raw_per_touch_yards" r = per_touch_yards r
               /\ col "efficiency_delta" r
                  = (col "raw_per_touch_yards" r - col "prev_efficiency" r)%F)
            out.
Proof.
  revert seen. induction l as [|x l IH]; intros seen.
  - simpl. repeat split; constructor.
  - specialize (IH (with_raw x :: seen)). simpl in IH.
    destruct IH as (H1 & H2 & H3 & H4).
    simpl. repeat split.
    + now rewrite H1.
    + now rewrite H2.
    + now rewrite H3.
    + constructor; [split; reflexivity | exact H4].
Qed.

Lemma add_trajectory_metrics_rows (df out : Table) :
  add_trajectory_metrics df = Ok out ->
  map player_season (rows out)
  = map player_season (sort_stable player_season_leb (rows df))
  /\ map (col "prev_efficiency") (rows out)
     = group_shift String.eqb player_id (col "raw_per_touch_yards") (rows out)
  /\ Forall (fun r =>
               col "raw_per_touch_yards" r = per_touch_yards r
               /\ col "efficiency_delta" r
                  = (col "raw_per_touch_yards" r - col "prev_efficiency" r)%F)
            (rows out).
Proof.
  unfold add_trajectory_metrics.
  destruct (require _ df); [|discriminate].
  intros H. injection H as <-. simpl rows.
  unfold with_norm, with_prev, group_shift.
  set (s := sort_stable player_season_leb (rows df)).
  match goal with
  | |- context [map (fun r => set "norm_trajectory" (?g r) r) _] =>
      destruct (trajectory_rows g s []) as (H1 & H2 & H3 & H4)
  end.
  cbv zeta in H1, H2, H3, H4.
  match type of H2 with
  | map _ ?o = _ => set (out := o) in *
  end.
  repeat split; try assumption.
  rewrite H3.
  rewrite (shift_from_view String.eqb player_id (col "raw_per_touch_yards")
             (map with_raw s)).
  rewrite (shift_from_view String.eqb player_id (col "raw_per_touch_yards")
             out).
  now rewrite H1.
Qed.

Lemma key_leb_same_player (a b : Row) :
  key_leb (player_season a) (player_season b) = true ->
  player_id a = player_id b -> (season a <= season b)%Z.
Proof.
  unfold key_leb, player_season. simpl. intros H E.
  rewrite E, string_compare_refl in H. now apply Z.leb_le.
Qed.

(** Between two rows of one player a sorted table only has rows of that
    player. *)
Lemma key_leb_between (a b c : Row) :
  key_leb (player_season a) (player_season b) = true ->
  key_leb (player_season b) (player_season c) = true ->
  player_id a = player_id c -> player_id b = player_id c.
Proof.
  unfold key_leb, player_season. simpl. intros Hab Hbc E.
  destruct (String.compare (player_id a) (player_id b)) eqn:Eab;
    try discriminate.
  - apply String.compare_eq_iff in Eab. congruence.
  - destruct (String.compare (player_id b) (player_id c)) eqn:Ebc;
      try discriminate.
    + now apply String.compare_eq_iff in Ebc.
    + pose proof (string_compare_lt_trans _ _ _ Eab Ebc) as H.
      rewrite E, string_compare_refl in H. discriminate.
Qed.

Lemma find_none_player (r : Row) (l : list Row) :
  (forall q, In q l -> player_id q <> player_id r) ->
  find (fun p => player_id p =? player_id r) l = None.
Proof.
  induction l as [|p l IH]; simpl; intros H; [reflexivity|].
  destruct (String.eqb_spec (player_id p) (player_id r)) as [E|_].
  - exfalso. apply (H p); auto.
  - apply IH. intros q Hq. apply H. auto.
Qed.

Lemma fsub_nan_r (x : fval) : (x - NaN)%F = NaN.
Proof. now destruct x. Qed.

Lemma app_eq_length (A : Type) (l1 l1' l2 l2' : list A) :
  l1 ++ l2 = l1' ++ l2' -> List.length l1 = List.length l1' ->
  l1 = l1' /\ l2 = l2'.
Proof.
  revert l1'. induction l1 as [|x l1 IH]; intros [|y l1']; simpl;
    try discriminate; intros H Hl.
  - now split.
  - injection H as -> H. destruct (IH l1' H) as (-> & ->); [lia|now split].
Qed.

(** C9. After sorting by (player_id, season), [prev_efficiency] of a row is
    the [raw_per_touch_yards] of the row just before it when that row is the
    same player's (then no earlier season of the player lies between them),
    and a row of another player is never used; [efficiency_delta] is the
    current rate minus [prev_efficiency]; on the first row of a player both
    are null. *)
Theorem add_trajectory_metrics_previous_season (df : Table) :
  require (sort_keys ++ inputs) df = Ok tt ->
  exists out,
    add_trajectory_metrics df = Ok out
    /\ StronglySorted (fun a b => key_leb a b = true)
         (map player_season (rows out))
    /\ Permutation (map player_season (rows df)) (map player_season (rows out))
    /\ forall pre r post,
         rows out = pre ++ r :: post ->
         col "raw_per_touch_yards" r = per_touch_yards r
         /\ col "efficiency_delta" r
            = (col "raw_per_touch_yards" r - col "prev_efficiency" r)%F
         /\ (forall pre' p,
               pre = pre' ++ [p] -> player_id p = player_id r ->
               col "prev_efficiency" r = col "raw_per_touch_yards" p
               /\ (season p <= season r)%Z
               /\ forall q, In q pre' -> player_id q = player_id r ->
                            (season q <= season p)%Z)
         /\ (forall pre' p,
               pre = pre' ++ [p] -> player_id p <> player_id r ->
               forall q, In q pre -> player_id q <> player_id r)
         /\ ((forall q, In q pre -> player_id q <> player_id r) ->
             col "prev_efficiency" r = NaN /\ col "efficiency_delta" r = NaN).
Proof.
  intros Hreq.
  assert (Hok : exists out, add_trajectory_metrics df = Ok out).
  { unfold add_trajectory_metrics. rewrite Hreq. eauto. }
  destruct Hok as (out & Hout). exists out. split; [exact Hout|].
  destruct (add_trajectory_metrics_rows _ Hout) as (Hkeys & Hprev & Hrows).
  assert (Hsorted : StronglySorted (fun a b => key_leb a b = true)
                      (map player_season (rows out))).
  { rewrite Hkeys. apply StronglySorted_map.
    apply sort_stable_sorted with (P := fun _ => True).
    - intros a b _ _. apply key_leb_total.
    - intros a b c _ _ _. apply key_leb_trans.
    - apply Forall_True. }
  split; [exact Hsorted|].
  split.
  { rewrite Hkeys. apply Permutation_map, sort_stable_perm. }
  intros pre r post Hdec.
  rewrite Hdec in Hprev, Hrows, Hsorted.
  apply Forall_app in Hrows. destruct Hrows as (_ & Hrows).
  inversion Hrows as [|? ? (Hraw & Hdelta) _]; subst.
  (* the cell of [prev_efficiency] at [r] *)
  assert (Hcell : col "prev_efficiency" r
                  = match find (fun p => player_id p =? player_id r) (rev pre)
                    with
                    | Some p => col "raw_per_touch_yards" p
                    | None => NaN
                    end).
  { unfold group_shift in Hprev.
    rewrite map_app, shift_from_app in Hprev. simpl in Hprev.
    apply app_eq_length in Hprev;
      [|now rewrite length_map, shift_from_length].
    destruct Hprev as (_ & Hprev). injection Hprev as Hprev _.
    now rewrite app_nil_r in Hprev. }
  (* the order of the rows before [r] *)
  assert (Hbefore : forall q, In q pre ->
                              key_leb (player_season q) (player_season r) = true).
  { intros q Hq. rewrite map_app in Hsorted. simpl in Hsorted.
    apply (StronglySorted_app_order _ _ Hsorted).
    - now apply in_map.
    - now left. }
  split; [exact Hraw|]. split; [exact Hdelta|].
  split; [|split].
  - intros pre' p -> Hp.
    rewrite rev_app_distr in Hcell. simpl in Hcell.
    rewrite Hp, String.eqb_refl in Hcell.
    split; [exact Hcell|]. split.
    + apply key_leb_same_player; [|exact Hp].
      apply Hbefore, in_or_app. right. now left.
    + intros q Hq Hqr. apply key_leb_same_player; [|congruence].
      rewrite !map_app in Hsorted. rewrite <- app_assoc in Hsorted.
      apply (StronglySorted_app_order _ _ Hsorted).
      * now apply in_map.
      * now left.
  - intros pre' p -> Hp q Hq Hqr.
    apply in_app_or in Hq. destruct Hq as [Hq|[<-|[]]]; [|now apply Hp].
    apply Hp. apply (key_leb_between q p r); [| |exact Hqr].
    + rewrite !map_app in Hsorted. rewrite <- app_assoc in Hsorted.
      apply (StronglySorted_app_order _ _ Hsorted).
      * now apply in_map.
      * now left.
    + apply Hbefore, in_or_app. right. now left.
  - intros Hfirst.
    assert (Hnan : col "prev_efficiency" r = NaN).
    { rewrite Hcell, find_none_player; [reflexivity|].
      intros q Hq. apply Hfirst. now apply in_rev. }
    split; [exact Hnan|]. rewrite Hdelta, Hnan. apply fsub_nan_r.
Qed.

(** * The breakout gate *)

Lemma fmul_fin (a b : Q) : (Fin a * Fin b)%F = fin (a * b).
Proof. reflexivity. Qed.

Lemma gate_twice (x : fval) :
  (x * lit 1.2 * lit 1.2)%F = (x * lit 1.44)%F
  /\ (x * lit 0.7 * lit 0.7)%F = (x * lit 0.49)%F.
Proof.
  destruct x as [| | |q]; try (split; reflexivity).
  unfold lit, fin. repeat (rewrite fmul_fin; unfold fin).
  split; f_equal; apply Qred_complete; rewrite !Qred_correct; ring.
Qed.

(** C10. In the returned table [arrival_multiplier] is the same cell as
    [breakout_multiplier]: 1.2 when the row's points per game are strictly
    below the 75th percentile of its position group, else 0.7; and
    [breakout_score] is the five-term combination times that multiplier
    twice, that is times 1.44 or 0.49. *)
Theorem breakout_score_gated_twice (df out : Table) :
  calculate_composite_metrics df = Ok out ->
  let kept := filter enough_games (rows df) in
  Forall2
    (fun r r' =>
       let below :=
         flt (col "fantasy_points_per_game" r)
             (quantile 0.75
                (map (col "fantasy_points_per_game")
                   (group_of String.eqb position kept r))) in
       col "arrival_multiplier" r' = col "breakout_multiplier" r'
       /\ col "breakout_multiplier" r' = (if below then lit 1.2 else lit 0.7)
       /\ col "breakout_score" r'
          = (weighted_sum (combine (breakout_terms kept r) breakout_weights)
             * col "breakout_multiplier" r' * col "arrival_multiplier" r')%F
       /\ col "breakout_score" r'
          = (weighted_sum (combine (breakout_terms kept r) breakout_weights)
             * (if below then lit 1.44 else lit 0.49))%F)
    kept (rows out).
Proof.
  intros Hout kept. rewrite (calculate_composite_metrics_rows _ Hout).
  fold kept. apply Forall2_map_r. intros r _.
  set (prog := program kept _).
  change (col "arrival_multiplier" (assigned prog (List.length prog) kept r))
    with (arrival_multiplier kept r).
  change (col "breakout_multiplier" (assigned prog (List.length prog) kept r))
    with (breakout_multiplier kept r).
  change (col "breakout_score" (assigned prog (List.length prog) kept r))
    with (breakout_score kept r).
  unfold breakout_score, breakout_score_first, arrival_multiplier,
    breakout_multiplier, arrival_threshold, by_position, transform, np_where.
  change (breakout_combination kept r)
    with (weighted_sum (combine (breakout_terms kept r) breakout_weights)).
  cbv zeta.
  destruct (flt _ _); repeat split; apply gate_twice.
Qed.

(** * The scenarios *)



(** Counterexample to C2 as stated.  The running back has no carry and 7
    rushing yards: his [raw_per_touch_yards] is 7, not 0.  The quarterback
    has no receiving cells: his [raw_per_touch_yards] is missing. *)
Lemma raw_per_touch_yards_not_zero :
  match calculate_composite_metrics season_2024 with
  | Ok out =>
      map (fun r => (position r, col "carries" r, col "targets" r,
                     col "raw_per_touch_yards" r)) (rows out)
      = [("RB", Fin 0, Fin 10, Fin 7); ("QB", Fin 40, NaN, NaN)]
  | Raise _ => False
  end.
Proof. vm_compute. reflexivity. Qed.

Lemma zero_denominator_policy_witness :
  is_zero (col "carries" lateral_back) = true
  /\ raw_per_touch_yards lateral_back
     = (col "rushing_yards" lateral_back / Fin 1)%F
  /\ is_zero (raw_per_touch_yards lateral_back) = false
  /\ isna (col "receiving_yards" passer) = true
  /\ raw_per_touch_yards passer = NaN.
Proof.
  destruct (zero_denominator_policy false lateral_back)
    as (_ & _ & _ & _ & _ & _ & Hrb & _).
  destruct (zero_denominator_policy false passer)
    as (_ & _ & _ & _ & _ & _ & _ & Hqb).
  destruct (Hrb eq_refl) as (Hzero & _).
  destruct (Hzero eq_refl) as (Hyards & Hnot).
  assert (Hpos : position passer <> "RB") by discriminate.
  destruct (Hqb Hpos) as (_ & Hnull).
  split; [reflexivity|]. split; [exact Hyards|].
  split; [rewrite Hnot; reflexivity|]. split; [reflexivity|].
  apply Hnull. now left.
Defined.

(** Counterexample to C3 as stated.  The table lacks all seven team
    columns, and the call fails on the [games] column before it looks for
    them. *)
Lemma missing_games_column_raised_first :
  missing_cols (columns bare_table) = required_cols
  /\ calculate_composite_metrics bare_table = Raise (KeyError "games").
Proof. split; reflexivity. Qed.

Lemma calculate_composite_metrics_validation_witness :
  In "games" (columns without_two_team_columns)
  /\ missing_cols (columns without_two_team_columns)
     = ["team_carries"; "team_attempts"]
  /\ calculate_composite_metrics without_two_team_columns
     = Raise (ValueError "Missing required team columns: "
                ["team_carries"; "team_attempts"]).
Proof.
  assert (Hg : In "games" (columns without_two_team_columns)).
  { apply has_column_In. reflexivity. }
  destruct (calculate_composite_metrics_validation without_two_team_columns)
    as (_ & H).
  destruct (H Hg) as (_ & Hraise & _).
  split; [exact Hg|]. split; [reflexivity|].
  apply Hraise. discriminate.
Defined.

(** Counterexample to C4 as stated.  The sell-high weights do not sum to 1:
    four terms equal to 1 combine to -0.1. *)
Lemma sell_high_weights_sum :
  ~ total_weight sell_high_weights == 1
  /\ weighted_sum (combine [Fin 1; Fin 1; Fin 1; Fin 1] sell_high_weights)
     = Fin (-0.1).
Proof. split; [discriminate|reflexivity]. Qed.

Lemma composite_score_weights_witness :
  match calculate_composite_metrics season_2024 with
  | Ok out =>
      Forall (fun r' =>
                col "sell_high_score" r'
                = (weighted_sum
                     (combine
                        [col "norm_age_risk" r'; col "norm_target_share" r';
                         col "norm_efficiency" r'; col "norm_trajectory" r']
                        sell_high_weights)
                   * col "market_value_multiplier" r')%F)
             (rows out)
  | Raise _ => False
  end.
Proof.
  destruct composite_score_weights as (_ & _ & _ & _ & H).
  destruct (calculate_composite_metrics season_2024) as [out|e] eqn:E.
  - specialize (H _ _ E). rewrite Forall_forall in *.
    intros r' Hr'. apply (H r' Hr').
  - vm_compute in E. discriminate.
Defined.

(** Counterexample to C5 as stated.  Every source has a row for the
    player-season; with two roster entries for it the constructor returns
    that key on two rows, and raises nothing. *)
Lemma duplicated_roster_duplicates_rows :
  match construct_intelligent_dataset duplicated_roster ["WR"] with
  | Ok out => map fused_key out = [("P", 2024%Z); ("P", 2024%Z)]
  | Raise _ => False
  end.
Proof. vm_compute. reflexivity. Qed.

Lemma construct_intelligent_dataset_keys_witness :
  single_keyed clean_sources
  /\ (exists out,
        construct_intelligent_dataset clean_sources ["WR"] = Ok out
        /\ NoDup (map fused_key out))
  /\ construct_intelligent_dataset without_charting ["WR"]
     = Raise (KeyError "player_id").
Proof.
  assert (H : single_keyed clean_sources).
  { unfold single_keyed, at_most_one. simpl.
    split; [repeat constructor; simpl; tauto|].
    repeat split; intros;
      repeat match goal with
             | |- context [if ?c then _ else _] => destruct c
             end;
      simpl; lia. }
  split; [exact H|].
  destruct (construct_intelligent_dataset_keys clean_sources ["WR"])
    as (_ & Hok).
  destruct (construct_intelligent_dataset_keys without_charting ["WR"])
    as (Hraise & _).
  split.
  - destruct Hok as (out & Hout & _ & Hkeys); try discriminate.
    exists out. split; [exact Hout|]. apply (Hkeys H).
  - apply Hraise. now left.
Defined.

Lemma handle_midseason_trades_per_group_witness :
  existsb is_total_row
    (group_of position_season_eqb pfr_key charting traded_club) = true
  /\ group_of position_season_eqb pfr_key (handle_midseason_trades charting)
       traded_club
     = [traded_total]
  /\ group_of position_season_eqb pfr_key (handle_midseason_trades charting)
       other_player
     = [other_player].
Proof.
  destruct (handle_midseason_trades_per_group charting traded_club)
    as (_ & Hyes & _).
  destruct (handle_midseason_trades_per_group charting other_player)
    as (_ & _ & Hno & _).
  split; [reflexivity|]. split.
  - rewrite Hyes; reflexivity.
  - rewrite Hno; reflexivity.
Defined.

(** An outcome of the breakout list on the candidates table. *)
Lemma breakout_candidates_outcome :
  get_dynasty_candidates candidates "breakout" 8 30
    (Ok (mkDF (columns candidates) [wr_30])).
Proof.
  unfold get_dynasty_candidates.
  change (select_candidates candidates "breakout" 8)
    with (Ok (Some ([wr_30], "breakout_score")) : result _).
  change (require ["breakout_score"] candidates) with (Ok tt : result _).
  exists [wr_30]. split; [|reflexivity].
  exists [wr_30]. split; [apply Permutation_refl|].
  split; [repeat constructor|reflexivity].
Qed.

Lemma breakout_candidates_filter_witness :
  get_dynasty_candidates candidates "breakout" 8 30
    (Ok (mkDF (columns candidates) [wr_30]))
  /\ Forall (breakout_eligible 8) [wr_30]
  /\ ~ In wr_20 [wr_30]
  /\ ~ In young_qb [wr_30]
  /\ In wr_30 [wr_30].
Proof.
  pose proof (@breakout_candidates_filter _ _ _ _ breakout_candidates_outcome)
    as (Hall & _ & Hqb & Hw20 & Hw30).
  split; [exact breakout_candidates_outcome|].
  split; [exact Hall|].
  split; [apply Hw20; reflexivity|].
  split; [apply Hqb; reflexivity|].
  apply (Hw30 wr_30); try reflexivity.
  - right; right; now left.
  - simpl. lia.
Defined.













Lemma add_trajectory_metrics_previous_season_witness :
  require (sort_keys ++ inputs) two_seasons = Ok tt
  /\ exists out,
       add_trajectory_metrics two_seasons = Ok out
       /\ StronglySorted (fun a b => key_leb a b = true)
            (map player_season (rows out)).
Proof.
  split; [reflexivity|].
  destruct (add_trajectory_metrics_previous_season two_seasons eq_refl)
    as (out & Hout & Hsorted & _).
  exists out. now split.
Defined.

(** The two-season scenario: 4.0 then 3.0 yards per carry, a delta of -1.0
    on the second season and none on the first. *)
Example two_seasons_delta :
  match add_trajectory_metrics two_seasons with
  | Ok out =>
      map (fun r => (season r, col "raw_per_touch_yards" r,
                     col "prev_efficiency" r, col "efficiency_delta" r))
          (rows out)
      = [(1%Z, Fin 4, NaN, NaN); (2%Z, Fin 3, Fin 4, Fin (-1))]
  | Raise _ => False
  end.
Proof. vm_compute. reflexivity. Qed.

Lemma breakout_score_gated_twice_witness :
  match calculate_composite_metrics season_2024 with
  | Ok out =>
      Forall (fun r' =>
                col "arrival_multiplier" r' = col "breakout_multiplier" r')
             (rows out)
  | Raise _ => False
  end.
Proof.
  destruct (calculate_composite_metrics season_2024) as [out|e] eqn:E.
  - pose proof (breakout_score_gated_twice _ E) as H. cbv zeta in H.
    clear E. induction H as [|r r' l l' (Hr & _) _ IH]; constructor; auto.
  - vm_compute in E. discriminate.
Defined.
